(** * PhilsElections2025: name standardisation, dataset loading and
      top-12 accuracy scoring

    A shallow embedding of the two Python sources of the repository,

    - [process_election_data.py]: [standardize_name], the numeric conversion
      loop of [read_opinion_polls] and the name mapping built by [main];
      the reading of the pipe tables and the vote counts of
      [read_actual_results];
    - [app.py]: [actual_top12], [get_top12_from_poll] and
      [generate_comparison_results]; the row of the selected survey, the
      two columns and the chart rows of the first page; the dictionaries
      [missed_counts] and [incorrect_counts] of the summary page and the
      two reports written from them;

    followed by the properties of the specification that concern them.

    Conventions of the embedding.
    - A Python [str] is a [string] of 8-bit characters.  The string
      primitives are those of Python on ASCII text ([Py.isascii]); a
      character above 127 is kept as it is and counts as uncased, not a
      word character and not white space, which is not what Python does
      with the letters outside ASCII.  A property that depends on the
      letter case of its input is therefore stated for ASCII names.
    - A pandas [float64] column is a [list float] of binary64 numbers; the
      missing value is NaN, exactly as pandas stores it.
    - [DataFrame.sort_values] is called by the source with its default
      [kind='quicksort'], which pandas documents as not stable.  It is
      therefore a parameter of the scorer, constrained by the contract
      [SortValuesDesc] (a permutation of the rows, in descending order).
    - The frame [opinion_polls] is given by its column ['Standardized Name']
      and its survey columns; the scorer selects a column by the header of
      a survey column only. *)

From stdpp Require Import base option list sorting strings gmap.
From Stdlib Require Import Ascii Floats ZArith.

Open Scope string_scope.
Open Scope nat_scope.

(** ** Python string primitives *)

Module Py.

Definition code (c : ascii) : nat := nat_of_ascii c.

Definition isupper (c : ascii) : bool := (65 <=? code c) && (code c <=? 90).
Definition islower (c : ascii) : bool := (97 <=? code c) && (code c <=? 122).
Definition isdigit (c : ascii) : bool := (48 <=? code c) && (code c <=? 57).

(** [str.isspace] on one character: TAB..CR, FS..US and the blank. *)
Definition isspace (c : ascii) : bool :=
  ((9 <=? code c) && (code c <=? 13)) || ((28 <=? code c) && (code c <=? 32)).

(** The class [\w] of the [re] module. *)
Definition isword (c : ascii) : bool :=
  isupper c || islower c || isdigit c || (code c =? 95).

Definition to_lower (c : ascii) : ascii :=
  if isupper c then ascii_of_nat (code c + 32) else c.
Definition to_upper (c : ascii) : ascii :=
  if islower c then ascii_of_nat (code c - 32) else c.

(** A cased character: [c.isupper() or c.islower()]. *)
Definition iscased (c : ascii) : bool := isupper c || islower c.

(** [s.isascii()] *)
Definition isascii (s : string) : bool :=
  forallb (fun c => code c <? 128) (String.list_ascii_of_string s).

(** [s.lower()] of an ASCII [s]; a character above 127 is left as it
    is. *)
Fixpoint lower (s : string) : string :=
  match s with
  | "" => ""
  | String c t => String (to_lower c) (lower t)
  end.

(** [s.title()] of an ASCII [s]: a cased character is upper-cased when
    the character before it is uncased (or there is none) and lower-cased
    otherwise; a character above 127 counts as uncased. *)
Fixpoint title_from (previous_is_cased : bool) (s : string) : string :=
  match s with
  | "" => ""
  | String c t =>
      if iscased c
      then String (if previous_is_cased then to_lower c else to_upper c)
                  (title_from true t)
      else String c (title_from false t)
  end.
Definition title (s : string) : string := title_from false s.

(** [s.lstrip()], [s.rstrip()], [s.strip()] *)
Fixpoint lstrip (s : string) : string :=
  match s with
  | "" => ""
  | String c t => if isspace c then lstrip t else s
  end.
Fixpoint rstrip (s : string) : string :=
  match s with
  | "" => ""
  | String c t =>
      match rstrip t with
      | "" => if isspace c then "" else String c ""
      | r => String c r
      end
  end.
Definition strip (s : string) : string := rstrip (lstrip s).

(** [sub in s] *)
Fixpoint contains (sub s : string) : bool :=
  String.prefix sub s ||
  match s with
  | "" => false
  | String _ t => contains sub t
  end.

(** [s.split(sep)] for a one-character separator. *)
Fixpoint split (sep : ascii) (s : string) : list string :=
  match s with
  | "" => [""]
  | String c t =>
      if Ascii.eqb c sep then "" :: split sep t
      else match split sep t with
           | [] => [String c ""]
           | p :: ps => String c p :: ps
           end
  end.

(** [sep.join(parts)] *)
Fixpoint join (sep : string) (parts : list string) : string :=
  match parts with
  | [] => ""
  | [p] => p
  | p :: ps => p +:+ sep +:+ join sep ps
  end.

(** [s.replace(old, new)] for a non-empty [old]: the occurrences are
    found from left to right and do not overlap.  [skip] counts the
    characters of a found occurrence that are still to be dropped. *)
Fixpoint replace_from (old new : string) (skip : nat) (s : string) : string :=
  match s with
  | "" => ""
  | String c t =>
      match skip with
      | S k => replace_from old new k t
      | O =>
          if String.prefix old s
          then new +:+ replace_from old new (String.length old - 1) t
          else String c (replace_from old new 0 t)
      end
  end.
Definition replace (old new s : string) : string := replace_from old new 0 s.

(** The character after a prefix of [n] characters is not a word
    character (or there is none): the closing [\b] of [\bword\b]. *)
Definition boundary_after (n : nat) (s : string) : bool :=
  match String.get n s with
  | Some c => negb (isword c)
  | None => true
  end.

(** [\bword\b] matches at the start of [s]. *)
Definition word_at (word : string) (previous_is_word : bool) (s : string)
  : bool :=
  negb previous_is_word && String.prefix word s
  && boundary_after (String.length word) s.

(** [re.sub(r'\bword\b', '', s)] for a [word] that starts and ends with a
    word character.  [previous_is_word] tells whether the character of
    [s] just before the current position is a word character. *)
Fixpoint re_sub_word_from (word : string) (previous_is_word : bool)
         (skip : nat) (s : string) : string :=
  match s with
  | "" => ""
  | String c t =>
      match skip with
      | S k => re_sub_word_from word (isword c) k t
      | O =>
          if word_at word previous_is_word s
          then re_sub_word_from word (isword c) (String.length word - 1) t
          else String c (re_sub_word_from word (isword c) 0 t)
      end
  end.
Definition re_sub_word (word s : string) : string :=
  re_sub_word_from word false 0 s.

(** [re.sub(r'\s+', ' ', s)] *)
Fixpoint re_sub_spaces_from (in_run : bool) (s : string) : string :=
  match s with
  | "" => ""
  | String c t =>
      if isspace c
      then if in_run then re_sub_spaces_from true t
           else String " " (re_sub_spaces_from true t)
      else String c (re_sub_spaces_from false t)
  end.
Definition re_sub_spaces (s : string) : string := re_sub_spaces_from false s.

End Py.

(** ** [process_election_data.py]: [standardize_name] *)

(** The dictionary [specific_cases], in insertion order. *)
Definition specific_cases : list (string * string) :=
  [ ("Go, Bong Go", "Bong Go");
    ("Bong Revilla, Ramon, Jr.", "Ramon Bong Revilla Jr.");
    ("Bong Revilla", "Ramon Bong Revilla Jr.");
    ("Pacquiao, Manny Pacman", "Manny Pacquiao");
    ("Tolentino, Francis Tol", "Francis Tolentino");
    ("Salvador, Phillip Ipe", "Phillip Salvador");
    ("Revillame, Willie Wil", "Willie Revillame");
    ("Tulfo, Ben Bitag", "Ben Tulfo");
    ("Bosita, Colonel", "Bonifacio Bosita");
    ("Rodriguez, Atty. Vic", "Vic Rodriguez") ].

(** The dictionary [name_mapping] of [standardize_name], in insertion
    order. *)
Definition name_variations : list (string * string) :=
  [ ("Bato Dela Rosa", "Bato dela Rosa");
    ("Panfilo Lacson", "Ping Lacson");
    ("Francis Tolentino", "Francis Tolentino");
    ("Phillip Ipe Salvador", "Phillip Salvador");
    ("Willie Revillame", "Willie Revillame");
    ("Ben Tulfo", "Ben Tulfo");
    ("Colonel Bosita", "Bonifacio Bosita");
    ("Atty. Vic Rodriguez", "Vic Rodriguez");
    ("Rodante Marcoleta", "Rodante Marcoleta");
    ("Kiko Pangilinan", "Francis Kiko Pangilinan") ].

(** The first loop: the value of the first key equal to [name] up to case,
    if any. *)
Definition specific_case (name : string) : option string :=
  snd <$> List.find (fun kv => String.eqb (Py.lower (fst kv)) (Py.lower name))
                    specific_cases.

(** "Last, First" to "First Last": [parts[1:] + [parts[0]]], stripped and
    joined by a blank. *)
Definition invert_commas (name : string) : string :=
  if Py.contains "," name then
    let parts := Py.split "," name in
    if 2 <=? length parts
    then Py.join " " (Py.strip <$> (tail parts ++ take 1 parts)%list)
    else name
  else name.

(** The four [re.sub] calls that delete nicknames. *)
Definition remove_nicknames (name : string) : string :=
  let name := Py.re_sub_word "Pacman" name in
  let name := Py.re_sub_word "Tol" name in
  let name := Py.re_sub_word "Wil" name in
  Py.re_sub_word "Bitag" name.

(** The second loop.  [name] is reassigned inside the loop, so a later key
    is looked for in the value an earlier key has put in place. *)
Definition fix_variations (name : string) : string :=
  fold_left
    (fun name kv =>
       if Py.contains (Py.lower (fst kv)) (Py.lower name) then snd kv else name)
    name_variations name.

(** What [standardize_name] does once the first loop has found nothing. *)
Definition general_rules (name : string) : string :=
  let name := invert_commas name in
  let name := remove_nicknames name in
  let name := fix_variations name in
  Py.strip (Py.re_sub_spaces name).

Definition standardize_name (name : string) : string :=
  let name := Py.title name in
  match specific_case name with
  | Some value => value
  | None => general_rules name
  end.

(** The canonical names the two tables can put in the place of a name. *)
Definition canonical_names : list string :=
  (snd <$> specific_cases) ++ (snd <$> name_variations).

(** ** Shapes of names *)

(** The character [Py.title_from] puts in the place of [c]. *)
Definition title_char (previous_is_cased : bool) (c : ascii) : ascii :=
  if Py.iscased c
  then if previous_is_cased then Py.to_lower c else Py.to_upper c
  else c.

(** [s] is in title case; [previous_is_cased] tells whether the character
    before [s] is cased. *)
Definition titled (previous_is_cased : bool) (s : string) : Prop :=
  Py.title_from previous_is_cased s = s.

(** Every white space character of [s] is a blank that does not follow
    white space; [previous_is_space] tells what comes before [s]. *)
Fixpoint single_spaced (previous_is_space : bool) (s : string) : bool :=
  match s with
  | "" => true
  | String c t =>
      if Py.isspace c
      then Ascii.eqb c " " && negb previous_is_space && single_spaced true t
      else single_spaced false t
  end.

(** [s] starts with [u], and what follows is not a word character. *)
Definition ends_at (u s : string) : bool :=
  String.prefix u s && Py.boundary_after (String.length u) s.

(** Some place of [s] matches [\bword\b]. *)
Fixpoint has_word (word : string) (previous_is_word : bool) (s : string)
  : bool :=
  match s with
  | "" => false
  | String c t =>
      Py.word_at word previous_is_word s || has_word word (Py.isword c) t
  end.

(** Wherever [\bword\b] matches in [s], [\bword'\b] matches too. *)
Fixpoint covered (word word' : string) (previous_is_word : bool) (s : string)
  : bool :=
  match s with
  | "" => true
  | String c t =>
      implb (Py.word_at word previous_is_word s)
            (Py.word_at word' previous_is_word s)
      && covered word word' (Py.isword c) t
  end.

(** [u] is made of word characters. *)
Definition all_word (u : string) : bool :=
  forallb Py.isword (String.list_ascii_of_string u).

(** The nicknames [remove_nicknames] deletes. *)
Definition nicknames : list string := ["Pacman"; "Tol"; "Wil"; "Bitag"].

(** The shape of a name that went through the general rules without
    being replaced by a canonical name: in title case, without a comma,
    without a nickname, with single blanks between its words. *)
Definition clean_name (name : string) : Prop :=
  titled false name
  /\ (","%char ∉ String.list_ascii_of_string name)
  /\ Forall (fun word => has_word word false name = false) nicknames
  /\ single_spaced false name = true
  /\ Py.strip name = name.

(** ** [process_election_data.py]: the numeric conversion of
       [read_opinion_polls] *)

(** A cell of the survey table: the text read from the file, or the number
    [pd.to_numeric] has put in its place. *)
Inductive cell : Type :=
  | Text (s : string)
  | Number (x : float).

(** The organisations whose name in a header marks a survey column. *)
Definition pollsters : list string :=
  [ "OCTA"; "SWS"; "Pulse Asia"; "WR Numero"; "Arkipelago Analytics";
    "The Center"; "DZRH"; "Publicus Asia" ].

(** The guard of the conversion loop: ['OCTA' in col or 'SWS' in col or ...]. *)
Definition is_poll_column (col : string) : bool :=
  existsb (fun pollster => Py.contains pollster col) pollsters.

(** [.str.replace('%', '').str.replace('**', '').str.replace('*', '')]
    [.str.strip()]; the patterns are literal text, as [regex=False], the
    default of pandas 2, has it. *)
Definition clean_cell (s : string) : string :=
  Py.strip (Py.replace "*" "" (Py.replace "**" "" (Py.replace "%" "" s))).

(** The number of columns of the frame whose header is [col]. *)
Definition header_count (df : list (string * list string)) (col : string)
  : nat :=
  length (filter (fun column => column.1 = col) df).

Section ToNumeric.

(** The number parser behind [pd.to_numeric]: [None] when the text is not
    a number.  It belongs to pandas, not to the repository. *)
Variable parse_float : string -> option float.

(** [pd.to_numeric(..., errors='coerce')] on one cell: what cannot be
    parsed becomes NaN. *)
Definition to_numeric_coerce (s : string) : float :=
  default nan (parse_float s).

(** A column the loop leaves alone. *)
Definition text_column (column : string * list string)
  : string * list cell :=
  (column.1, Text <$> column.2).

(** One turn of the loop [for col in df.columns[2:]].  [df[col]] is a
    column when one column only of the frame is headed [col]; when several
    are, it is a frame, which has no [.str]: [None] stands for the
    [AttributeError] of line 132. *)
Definition convert_column (df : list (string * list string))
  (column : string * list string) : option (string * list cell) :=
  if is_poll_column column.1
  then if decide (header_count df column.1 = 1)
       then Some (column.1,
                  (fun s => Number (to_numeric_coerce (clean_cell s)))
                    <$> column.2)
       else None
  else Some (text_column column).

(** The whole loop, on the frame given column by column in header order
    (the column ['Standardized Name'] comes last).  The first two columns
    are skipped; the first turn that raises ends the loop. *)
Definition convert_poll_columns (df : list (string * list string))
  : option (list (string * list cell)) :=
  columns ← mapM (convert_column df) (drop 2 df);
  Some ((text_column <$> take 2 df) ++ columns)%list.

End ToNumeric.

(** What the conversion makes of a raw cell of a survey column: the
    number the parser reads in the cleaned text, NaN when it reads none,
    and NaN for a cell that is empty or is cleaned to nothing. *)
Definition converted (parse_float : string -> option float)
  (raw : string) (c : cell) : Prop :=
  let text := clean_cell raw in
  Py.contains "%" text = false
  /\ Py.contains "*" text = false
  /\ match parse_float text with
     | Some x => c = Number x
     | None => c = Number nan
     end
  /\ (raw = "" \/ text = "" -> c = Number nan).

(** ** [process_election_data.py]: the name mapping of [main] *)

(** [DataFrame.drop_duplicates()]: the first occurrence of every row is
    kept. [seen] holds the rows met so far. *)
Fixpoint drop_duplicates_from {A} `{EqDecision A} (seen l : list A) : list A :=
  match l with
  | [] => []
  | row :: rest =>
      if decide (row ∈ seen) then drop_duplicates_from seen rest
      else row :: drop_duplicates_from (row :: seen) rest
  end.
Definition drop_duplicates {A} `{EqDecision A} (l : list A) : list A :=
  drop_duplicates_from [] l.

(** The frame [name_mapping] of [main]; its arguments are the column
    ['Candidate Name'] of the official results and the column ['Candidate']
    of the survey table, whose ['Standardized Name'] columns were filled by
    [.apply(standardize_name)]. *)
Definition name_mapping (candidate_names candidates : list string)
  : list (string * string) :=
  drop_duplicates
    (zip (candidate_names ++ candidates)
         ((standardize_name <$> candidate_names)
            ++ (standardize_name <$> candidates))).

(** The rows of a mapping whose original name is [original]. *)
Definition mapping_rows (original : string) (mapping : list (string * string))
  : list (string * string) :=
  filter (fun row => row.1 = original) mapping.

(** ** Stable descending sort *)

Section InsertionSort.

Context {A : Type}.
(** [le a b]: the key of [a] is at most the key of [b]. *)
Variable le : A -> A -> bool.

(** [x] goes in front of the first row whose key is at most its own, so
    behind the rows with a greater key and before the rows with the same
    key. *)
Fixpoint insert_desc (x : A) (l : list A) : list A :=
  match l with
  | [] => [x]
  | y :: t => if le y x then x :: l else y :: insert_desc x t
  end.

(** Descending order; rows with equal keys keep the order of the input. *)
Definition stable_sort_desc (l : list A) : list A := foldr insert_desc [] l.

(** The same, except that [x] goes behind the rows with the same key:
    rows with equal keys end up in the reverse of the input order.  A
    sort of this kind meets what is documented of [sort_values] in its
    default kind. *)
Fixpoint insert_desc_behind (x : A) (l : list A) : list A :=
  match l with
  | [] => [x]
  | y :: t => if le x y then y :: insert_desc_behind x t else x :: l
  end.
Definition tie_reversing_sort_desc (l : list A) : list A :=
  foldr insert_desc_behind [] l.

(** [b] may come after [a] in a descending order. *)
Definition desc (a b : A) : Prop := le b a = true.

(** [a] and [b] have equal keys. *)
Definition tied (a b : A) : bool := le a b && le b a.

(** No two rows at different places have equal keys. *)
Fixpoint no_ties (l : list A) : bool :=
  match l with
  | [] => true
  | x :: t => forallb (fun y => negb (tied x y)) t && no_ties t
  end.

End InsertionSort.

(** ** [app.py]: the scorer *)

(** A row of [actual_results.csv]. *)
Record OfficialResult : Type := {
  Candidate_Name : string;
  Number_of_Votes : Z;
  Standardized_Name : string
}.

(** [actual_top12 = actual_results.head(12)['Standardized Name'].tolist()] *)
Definition actual_top12_of (actual_results : list OfficialResult) : list string :=
  Standardized_Name <$> take 12 actual_results.

(** The frame [opinion_polls]: the column ['Standardized Name'] and, in
    header order, every column other than ['Candidate'], ['Party'] and
    ['Standardized Name'], each of dtype float64 with NaN where the survey
    has no figure for the candidate. *)
Record OpinionPolls : Type := {
  polls_names : list string;
  polls_scores : list (string * list float)
}.

(** A row of the frame [comparison_results]. *)
Record Scorecard : Type := {
  Opinion_Polling : string;
  Correct_Predictions : nat;
  Accuracy : float;
  Predicted_Top_12 : list string
}.

(** What a Python expression of the scorer can raise. *)
Inductive PyError : Type :=
  | KeyError
  | ZeroDivisionError.

Inductive result (A : Type) : Type :=
  | Ok (a : A)
  | Raise (e : PyError).
Arguments Ok {A} a.
Arguments Raise {A} e.

#[global] Instance result_ret : MRet result := fun A a => Ok a.
#[global] Instance result_bind : MBind result := fun A B f m =>
  match m with
  | Ok a => f a
  | Raise e => Raise e
  end.

(** The conversion of a Python [int] that fits in 63 bits to [float]. *)
Definition float_of_nat (n : nat) : float :=
  PrimFloat.of_uint63 (Uint63.of_Z (Z.of_nat n)).

(** [a / b] on two [int]s. *)
Definition py_truediv (a b : nat) : result float :=
  match b with
  | O => Raise ZeroDivisionError
  | S _ => Ok (float_of_nat a / float_of_nat b)%float
  end.

(** [poll_df.dropna(subset=[poll_column])] on the two-column frame. *)
Definition dropna (poll_df : list (string * float)) : list (string * float) :=
  filter (fun row => is_nan row.2 = false) poll_df.

(** The order of two rows by their score. *)
Definition score_le (a b : string * float) : bool := (a.2 <=? b.2)%float.

(** The order of two official results by their votes. *)
Definition votes_le (a b : OfficialResult) : bool :=
  (Number_of_Votes a <=? Number_of_Votes b)%Z.

(** What the scorer relies on from
    [poll_df.sort_values(by=poll_column, ascending=False)], on a frame
    without NaN: the rows are permuted and come out in descending order of
    the score.  The order of rows with equal scores is left open. *)
Record SortValuesDesc
  (sort_values : list (string * float) -> list (string * float)) : Prop := {
  sort_values_perm : forall poll_df, sort_values poll_df ≡ₚ poll_df;
  sort_values_sorted : forall poll_df,
    Forall (fun row => is_nan row.2 = false) poll_df ->
    StronglySorted (desc score_le) (sort_values poll_df)
}.

Section Scorer.

Variable sort_values : list (string * float) -> list (string * float).
Variable opinion_polls : OpinionPolls.
Variable actual_top12 : list string.

(** [opinion_polls[poll_column]] for the header of a survey column: the
    first column with that header.  The columns ['Candidate'], ['Party']
    and ['Standardized Name'] of the frame are not survey columns and are
    not looked up here; the scorer selects the headers of [poll_columns]
    only. *)
Definition polls_column (poll_column : string) : option (list float) :=
  (fun found => found.2.2)
    <$> list_find (fun column => column.1 = poll_column)
                  (polls_scores opinion_polls).

(** [opinion_polls[['Standardized Name', poll_column]]] *)
Definition select_poll (poll_column : string)
  : result (list (string * float)) :=
  match polls_column poll_column with
  | Some scores => Ok (zip (polls_names opinion_polls) scores)
  | None => Raise KeyError
  end.

Definition get_top12_from_poll (poll_column : string) : result (list string) :=
  poll_df ← select_poll poll_column;
  let poll_df := dropna poll_df in
  let poll_df := sort_values poll_df in
  mret (fst <$> take 12 poll_df).

(** [sum(1 for candidate in poll_top12 if candidate in actual_top12)] *)
Definition correct_count_of (poll_top12 : list string) : nat :=
  length (filter (fun candidate => candidate ∈ actual_top12) poll_top12).

(** [poll_columns] of [generate_comparison_results]. *)
Definition poll_columns : list string := fst <$> polls_scores opinion_polls.

(** The body of the loop of [generate_comparison_results]. *)
Definition compare_poll (poll_column : string) : result Scorecard :=
  poll_top12 ← get_top12_from_poll poll_column;
  let correct_count := correct_count_of poll_top12 in
  let accuracy := (float_of_nat correct_count / 12 * 100)%float in
  mret {| Opinion_Polling := poll_column;
          Correct_Predictions := correct_count;
          Accuracy := accuracy;
          Predicted_Top_12 := poll_top12 |}.

Definition generate_comparison_results : result (list Scorecard) :=
  mapM compare_poll poll_columns.

End Scorer.

(** The scorecard the loop body builds for a column with the given
    values. *)
Definition scorecard_of
  (sort_values : list (string * float) -> list (string * float))
  (names actual_top12 : list string) (poll_column : string)
  (scores : list float) : Scorecard :=
  let poll_top12 := fst <$> take 12 (sort_values (dropna (zip names scores))) in
  {| Opinion_Polling := poll_column;
     Correct_Predictions := correct_count_of actual_top12 poll_top12;
     Accuracy := (float_of_nat (correct_count_of actual_top12 poll_top12)
                  / 12 * 100)%float;
     Predicted_Top_12 := poll_top12 |}.

(** ** The scorer as the specification words it *)

(** "the official results ordered by vote count descending, truncated to
    the first [top_n] CanonicalIdentities", ties in input order. *)
Definition spec_actualTopN (official : list OfficialResult) (top_n : nat)
  : list string :=
  Standardized_Name <$> take top_n (stable_sort_desc votes_le official).

(** "collect all SurveyRecords with a non-absent score for that column,
    sort by score descending (stable), take the first [top_n]". *)
Definition spec_predictedTopN (names : list string) (scores : list float)
  (top_n : nat) : list string :=
  fst <$> take top_n (stable_sort_desc score_le (dropna (zip names scores))).

(** "size of the intersection of predictedTopN and actualTopN". *)
Definition spec_correctCount (predictedTopN actualTopN : list string) : nat :=
  size ((list_to_set predictedTopN : gset string) ∩ list_to_set actualTopN).

(** "correctCount / top_n * 100", "defined as 0.0" when [top_n] is 0. *)
Definition spec_accuracy (correctCount top_n : nat) : float :=
  match top_n with
  | O => 0%float
  | S _ => (float_of_nat correctCount / float_of_nat top_n * 100)%float
  end.

(** ** Sample data *)

(** A stand-in for the parser of pandas in the examples: it reads unsigned
    decimal integers and nothing else. *)
Fixpoint parse_digits (value : nat) (s : string) : option nat :=
  match s with
  | "" => Some value
  | String c t =>
      if Py.isdigit c then parse_digits (10 * value + (Py.code c - 48)) t
      else None
  end.
Definition parse_unsigned (s : string) : option float :=
  match s with
  | "" => None
  | _ => float_of_nat <$> parse_digits 0 s
  end.

(** A survey table as [read_opinion_polls] has it before the conversion. *)
Definition raw_polls : list (string * list string) :=
  [ ("Candidate", ["Go, Bong Go"; "Tulfo, Erwin"]);
    ("Party", ["PDP"; "Lakas"]);
    ("SWS Jan 2025", ["**42%**"; ""]);
    ("Tangere Jan 2025", ["45%"; "n/a"]);
    ("Standardized Name", ["Bong Go"; "Erwin Tulfo"]) ].

(** A survey table in which two survey columns have the same header. *)
Definition repeated_header_polls : list (string * list string) :=
  [ ("Candidate", ["Go, Bong Go"]);
    ("Party", ["PDP"]);
    ("SWS", ["42%"]);
    ("SWS", ["44%"]);
    ("Standardized Name", ["Bong Go"]) ].

Definition official (name : string) (votes : Z) : OfficialResult :=
  {| Candidate_Name := name; Number_of_Votes := votes;
     Standardized_Name := standardize_name name |}.

(** Official results in descending order of the votes, with a tie. *)
Definition ranked_results : list OfficialResult :=
  [ official "GO, BONG GO" 30; official "Aquino, Bam" 20;
    official "Dela Rosa, Bato" 20; official "Tulfo, Erwin" 10 ].

(** Official results that are not in descending order of the votes. *)
Definition unranked_results : list OfficialResult :=
  [ official "Tulfo, Erwin" 10; official "GO, BONG GO" 30 ].

(** A survey table: the second survey covers one candidate only. *)
Definition sample_polls : OpinionPolls :=
  {| polls_names := ["Bong Go"; "Erwin Tulfo"; "Bam Aquino"];
     polls_scores := [ ("SWS", [42; 45.5; nan]%float);
                       ("OCTA", [nan; 51; nan]%float) ] |}.

(** A survey table in which the candidates share their scores two by
    two. *)
Definition tied_polls : OpinionPolls :=
  {| polls_names := ["Bong Go"; "Erwin Tulfo"; "Bam Aquino"; "Ping Lacson"];
     polls_scores := [ ("SWS", [1; 1; 2; 2]%float) ] |}.

(** A survey table in which two rows carry the same canonical name. *)
Definition repeated_polls : OpinionPolls :=
  {| polls_names := ["Bong Go"; "Bong Go"];
     polls_scores := [ ("SWS", [42; 41]%float) ] |}.

(** ** More shapes of names *)

(** The one canonical name that is not in title case. *)
Definition lower_case_particle_name : string := "Bato dela Rosa".

(** ** [process_election_data.py]: reading a pipe table *)

(** [l[1:-1]] *)
Definition slice_inner {A : Type} (l : list A) : list A :=
  drop 1 (take (length l - 1) l).

(** [[cell.strip() for cell in line.strip().split('|')[1:-1]]]: the cells
    of the header line of [read_actual_results] and of every data line. *)
Definition table_cells (line : string) : list string :=
  Py.strip <$> slice_inner (Py.split "|" (Py.strip line)).

(** The header cells of [read_opinion_polls]: [<br>] becomes a blank after
    the cell has been stripped. *)
Definition poll_header_cells (line : string) : list string :=
  (fun cell => Py.replace "<br>" " " (Py.strip cell))
    <$> slice_inner (Py.split "|" (Py.strip line)).

(** The loop over [lines[2:]]: the lines without a pipe are passed over. *)
Definition data_rows (lines : list string) : list (list string) :=
  table_cells <$> filter (fun line => Py.contains "|" line = true) (drop 2 lines).

(** [header] and [data] of [read_actual_results]; [None] stands for the
    [IndexError] that [lines[0]] raises on an empty file. *)
Definition read_table (lines : list string)
  : option (list string * list (list string)) :=
  match lines with
  | [] => None
  | first :: _ => Some (table_cells first, data_rows lines)
  end.

(** A line of a pipe table as [readlines] returns it, [| c1 | c2 |] with
    the line feed at its end; the cells are given with their padding. *)
Definition table_line (cells : list string) : string :=
  Py.join "|" ("" :: cells ++ [String "010" ""]).

(** The number of occurrences of [c] in [s]. *)
Definition count_char (c : ascii) (s : string) : nat :=
  length (filter (fun a => a = c) (String.list_ascii_of_string s)).

(** ** [process_election_data.py]: the votes of [read_actual_results] *)

Section Votes.

(** The conversion of one string by [astype(int)]: [None] when it raises.
    It belongs to pandas and Python, not to the repository. *)
Variable int_of_string : string -> option Z.

(** One cell of [df['Number of Votes'].str.replace(',', '').astype(int)]. *)
Definition votes_of_cell (cell : string) : option Z :=
  int_of_string (Py.replace "," "" cell).

(** The whole column: one cell that cannot be converted makes the
    statement raise. *)
Definition votes_column (cells : list string) : option (list Z) :=
  mapM votes_of_cell cells.

End Votes.

(** The number the decimal digits of [s] write, other characters being
    passed over; [acc] is the number read so far. *)
Fixpoint decimal_digits (acc : Z) (s : string) : Z :=
  match s with
  | "" => acc
  | String c t =>
      if Py.isdigit c
      then decimal_digits (10 * acc + Z.of_nat (Py.code c - 48)) t
      else decimal_digits acc t
  end.

(** [s] is made of decimal digits, at least one. *)
Definition is_decimal (s : string) : bool :=
  forallb Py.isdigit (String.list_ascii_of_string s)
  && negb (String.eqb s "").

(** What is taken for granted of [int_of_string]: a string of decimal
    digits that writes a number below [2^63] is converted to that number. *)
Definition reads_decimals (int_of_string : string -> option Z) : Prop :=
  forall s, is_decimal s = true -> (decimal_digits 0 s < 2 ^ 63)%Z ->
            int_of_string s = Some (decimal_digits 0 s).

(** [s] is made of decimal digits and commas, with one digit at least. *)
Definition is_grouped_decimal (s : string) : bool :=
  forallb (fun c => Py.isdigit c || Ascii.eqb c ",")
          (String.list_ascii_of_string s)
  && existsb Py.isdigit (String.list_ascii_of_string s).

(** A stand-in for [int_of_string] in the examples: decimal digits only. *)
Definition int_of_decimal (s : string) : option Z :=
  if is_decimal s && (decimal_digits 0 s <? 2 ^ 63)%Z
  then Some (decimal_digits 0 s) else None.

(** ** [app.py]: the two pages *)

(** [l.index(x)]; [None] stands for the [ValueError] of an [x] that is not
    in [l]. *)
Fixpoint py_index {A : Type} `{EqDecision A} (x : A) (l : list A) : option nat :=
  match l with
  | [] => None
  | y :: t => if decide (y = x) then Some 0 else S <$> py_index x t
  end.

(** A rank, or the text that stands for none. *)
Inductive Rank : Type :=
  | Ranked (n : nat)
  | Not_in_top.

(** [top.index(candidate) + 1 if candidate in top else "Not in top 12"];
    [None] stands for a [ValueError]. *)
Definition rank_in (top : list string) (candidate : string) : option Rank :=
  if bool_decide (candidate ∈ top)
  then (fun i => Ranked (i + 1)) <$> py_index candidate top
  else Some Not_in_top.

(** A line of one of the two columns of the first page. *)
Record RankLine : Type := {
  line_number : nat;
  line_candidate : string;
  line_mark : bool;
  line_rank : Rank
}.

(** The loop [for i, candidate in enumerate(shown, 1)] of a column: the
    mark and the rank of each candidate of [shown] in [other]. *)
Definition rank_lines (shown other : list string) : option (list RankLine) :=
  mapM (fun numbered : nat * string =>
          rank ← rank_in other numbered.2;
          Some {| line_number := numbered.1 + 1;
                  line_candidate := numbered.2;
                  line_mark := bool_decide (numbered.2 ∈ other);
                  line_rank := rank |})
       (imap pair shown).

(** [comparison_df[comparison_df['Opinion Polling'] == selected_poll].iloc[0]];
    [None] stands for the error of a selection without a row: the
    [IndexError] of [.iloc[0]], or the [KeyError] of the column on a frame
    that was built from no scorecard. *)
Definition poll_data_of (comparison_df : list Scorecard) (selected_poll : string)
  : option Scorecard :=
  head (filter (fun card => Opinion_Polling card = selected_poll) comparison_df).

(** A [dict] from names to counts, in insertion order. *)
Definition Counts : Type := list (string * nat).

(** [d[key] = value]: the value of a key that is there is replaced where
    it stands, a new key goes to the end. *)
Fixpoint dict_set (key : string) (value : nat) (d : Counts) : Counts :=
  match d with
  | [] => [(key, value)]
  | item :: rest =>
      if decide (item.1 = key) then (key, value) :: rest
      else item :: dict_set key value rest
  end.

(** [d.get(key, 0)] *)
Fixpoint dict_get (key : string) (d : Counts) : nat :=
  match d with
  | [] => 0
  | item :: rest => if decide (item.1 = key) then item.2 else dict_get key rest
  end.

(** [sum(1 for _, row in comparison_df.iterrows()
          if senator not in row['Predicted Top 12'])] *)
Definition missed_count (comparison_df : list Scorecard) (senator : string)
  : nat :=
  length (filter (fun card => senator ∉ Predicted_Top_12 card) comparison_df).

(** The loop that fills [missed_counts]. *)
Definition missed_counts (actual_top12 : list string)
  (comparison_df : list Scorecard) : Counts :=
  foldl (fun d senator => dict_set senator (missed_count comparison_df senator) d)
        [] actual_top12.

(** The two nested loops that fill [incorrect_counts]. *)
Definition incorrect_counts (actual_top12 : list string)
  (comparison_df : list Scorecard) : Counts :=
  foldl (fun d card =>
           foldl (fun d candidate =>
                    if decide (candidate ∉ actual_top12)
                    then dict_set candidate (dict_get candidate d + 1) d
                    else d)
                 d (Predicted_Top_12 card))
        [] comparison_df.

(** The order of two items by their count. *)
Definition count_le (a b : string * nat) : bool := a.2 <=? b.2.

(** [sorted(d.items(), key=lambda x: x[1], reverse=True)[:5]]: [sorted]
    is stable, also with [reverse=True]. *)
Definition most_counted (d : Counts) : Counts :=
  take 5 (stable_sort_desc count_le d).

(** The loop that writes the lines of a count with its percentage of
    the surveys: [if count > 0: (count / len(comparison_df)) * 100]. *)
Definition percentage_lines (surveys : nat) (items : Counts)
  : result (list (string * nat * float)) :=
  mapM (fun item : string * nat =>
          if 0 <? item.2
          then quotient ← py_truediv item.2 surveys;
               mret (Some (item.1, item.2, (quotient * 100)%float))
          else mret None)
       items
  ≫= fun lines => mret (omap id lines).

Definition missed_report (actual_top12 : list string)
  (comparison_df : list Scorecard) : result (list (string * nat * float)) :=
  percentage_lines (length comparison_df)
                   (most_counted (missed_counts actual_top12 comparison_df)).

Definition incorrect_report (actual_top12 : list string)
  (comparison_df : list Scorecard) : result (list (string * nat * float)) :=
  percentage_lines (length comparison_df)
                   (most_counted (incorrect_counts actual_top12 comparison_df)).

(** The scorecards of some surveys, for the examples. *)
Definition sample_cards : list Scorecard :=
  [ {| Opinion_Polling := "SWS"; Correct_Predictions := 1;
       Accuracy := (float_of_nat 1 / 12 * 100)%float;
       Predicted_Top_12 := ["Erwin Tulfo"; "Bong Go"] |};
    {| Opinion_Polling := "OCTA"; Correct_Predictions := 0;
       Accuracy := 0%float;
       Predicted_Top_12 := ["Erwin Tulfo"] |} ].

(** The names of all predicted lists, survey after survey. *)
Definition predicted_names (comparison_df : list Scorecard) : list string :=
  concat (Predicted_Top_12 <$> comparison_df).

(** The number of places of [l] that hold [name]. *)
Definition occurrences (name : string) (l : list string) : nat :=
  length (filter (fun candidate => candidate = name) l).

(** The number of surveys whose predicted list holds [name]. *)
Definition included_count (comparison_df : list Scorecard) (name : string)
  : nat :=
  length (filter (fun card => name ∈ Predicted_Top_12 card) comparison_df).

(** The line of an item with a positive count among that many surveys. *)
Definition percentage_line (surveys : nat) (item : string * nat)
  : string * nat * float :=
  (item.1, item.2, (float_of_nat item.2 / float_of_nat surveys * 100)%float).

(** The rows of the bar chart of the first page: [poll_percentages] and
    [top_candidates = poll_percentages.head(20)]. *)
Definition top_candidates
  (sort_values : list (string * float) -> list (string * float))
  (opinion_polls : OpinionPolls) (selected_poll : string)
  : result (list (string * float)) :=
  poll_percentages ← select_poll opinion_polls selected_poll;
  let poll_percentages := dropna poll_percentages in
  let poll_percentages := sort_values poll_percentages in
  mret (take 20 poll_percentages).

(** The lines of a column that carry the mark. *)
Definition marked (lines : list RankLine) : list RankLine :=
  filter (fun line => line_mark line = true) lines.

(** * Properties *)

(** ** The order of binary64 numbers *)

Lemma SFleb_total (a b : spec_float) :
  a <> S754_nan -> b <> S754_nan -> SFleb a b = true \/ SFleb b a = true.
Proof.
  intros Ha Hb. unfold SFleb, SFcompare.
  destruct a as [[]|[]| |[] m1 e1], b as [[]|[]| |[] m2 e2];
    try congruence; auto.
  all: change (Pos.compare_cont Eq) with Pos.compare;
    destruct (Z.compare_spec e1 e2), (Z.compare_spec e2 e1); try lia; auto;
    destruct (Pos.compare_spec m1 m2), (Pos.compare_spec m2 m1);
    simpl; try lia; auto.
Qed.

Lemma SFleb_trans (a b c : spec_float) :
  SFleb a b = true -> SFleb b c = true -> SFleb a c = true.
Proof.
  unfold SFleb, SFcompare.
  destruct a as [[]|[]| |[] m1 e1], b as [[]|[]| |[] m2 e2],
           c as [[]|[]| |[] m3 e3]; try discriminate; auto.
  all: change (Pos.compare_cont Eq) with Pos.compare;
    destruct (Z.compare_spec e1 e2), (Z.compare_spec e2 e3),
             (Z.compare_spec e1 e3); try lia; try discriminate; auto;
    destruct (Pos.compare_spec m1 m2), (Pos.compare_spec m2 m3),
             (Pos.compare_spec m1 m3); simpl; try lia; try discriminate; auto.
Qed.

Lemma is_nan_false (x : float) : is_nan x = false <-> Prim2SF x <> S754_nan.
Proof.
  unfold is_nan. rewrite FloatAxioms.eqb_spec. unfold SFeqb, SFcompare.
  destruct (Prim2SF x) as [[]|[]| |[] m e]; simpl;
    try change (Pos.compare_cont Eq) with Pos.compare;
    rewrite ?Z.compare_refl, ?Pos.compare_refl; simpl;
    split; congruence.
Qed.

Lemma float_leb_total (x y : float) :
  is_nan x = false -> is_nan y = false ->
  (x <=? y)%float = true \/ (y <=? x)%float = true.
Proof. rewrite !is_nan_false, !leb_spec. apply SFleb_total. Qed.

Lemma float_leb_trans (x y z : float) :
  (x <=? y)%float = true -> (y <=? z)%float = true -> (x <=? z)%float = true.
Proof. rewrite !leb_spec. apply SFleb_trans. Qed.

(** ** The insertion sorts *)

Section InsertionSortFacts.

Context {A : Type} (le : A -> A -> bool) (P : A -> Prop).
Hypothesis le_total :
  forall a b, P a -> P b -> le a b = true \/ le b a = true.
Hypothesis le_trans :
  forall a b c, le a b = true -> le b c = true -> le a c = true.

Lemma insert_desc_perm (x : A) (l : list A) : insert_desc le x l ≡ₚ x :: l.
Proof.
  induction l as [|y t IH]; simpl; [done|].
  destruct (le y x); [done|]. rewrite IH. apply Permutation_swap.
Qed.

Lemma insert_desc_behind_perm (x : A) (l : list A) :
  insert_desc_behind le x l ≡ₚ x :: l.
Proof.
  induction l as [|y t IH]; simpl; [done|].
  destruct (le x y); [|done]. rewrite IH. apply Permutation_swap.
Qed.

Lemma stable_sort_desc_perm (l : list A) : stable_sort_desc le l ≡ₚ l.
Proof.
  induction l as [|x t IH]; simpl; [done|].
  rewrite insert_desc_perm. by f_equiv.
Qed.

Lemma tie_reversing_sort_desc_perm (l : list A) :
  tie_reversing_sort_desc le l ≡ₚ l.
Proof.
  induction l as [|x t IH]; simpl; [done|].
  rewrite insert_desc_behind_perm. by f_equiv.
Qed.

Lemma desc_below (x y : A) (t : list A) :
  le y x = true -> Forall (desc le y) t -> Forall (desc le x) t.
Proof.
  intros Hyx Ht. eapply Forall_impl; [done|].
  intros z Hz. unfold desc in *. eauto.
Qed.

Lemma insert_desc_sorted (x : A) (l : list A) :
  P x -> Forall P l -> StronglySorted (desc le) l ->
  StronglySorted (desc le) (insert_desc le x l).
Proof.
  intros Hx HP Hl. induction Hl as [|y t Ht IH Hy]; simpl.
  - repeat constructor.
  - apply Forall_cons in HP as [Py Pt].
    destruct (le y x) eqn:Hyx.
    + constructor; [by constructor|].
      constructor; [done|]. by eapply desc_below.
    + constructor; [by apply IH|].
      rewrite insert_desc_perm. constructor; [|done].
      unfold desc. destruct (le_total x y Hx Py); congruence.
Qed.

Lemma insert_desc_behind_sorted (x : A) (l : list A) :
  P x -> Forall P l -> StronglySorted (desc le) l ->
  StronglySorted (desc le) (insert_desc_behind le x l).
Proof.
  intros Hx HP Hl. induction Hl as [|y t Ht IH Hy]; simpl.
  - repeat constructor.
  - apply Forall_cons in HP as [Py Pt].
    destruct (le x y) eqn:Hxy.
    + constructor; [by apply IH|].
      rewrite insert_desc_behind_perm. by constructor.
    + assert (le y x = true) as Hyx
        by (destruct (le_total x y Hx Py); congruence).
      constructor; [by constructor|].
      constructor; [done|]. by eapply desc_below.
Qed.

Lemma stable_sort_desc_sorted (l : list A) :
  Forall P l -> StronglySorted (desc le) (stable_sort_desc le l).
Proof.
  induction 1 as [|x t Hx Ht IH]; simpl; [constructor|].
  apply insert_desc_sorted; [done| |done].
  by rewrite stable_sort_desc_perm.
Qed.

Lemma tie_reversing_sort_desc_sorted (l : list A) :
  Forall P l -> StronglySorted (desc le) (tie_reversing_sort_desc le l).
Proof.
  induction 1 as [|x t Hx Ht IH]; simpl; [constructor|].
  apply insert_desc_behind_sorted; [done| |done].
  by rewrite tie_reversing_sort_desc_perm.
Qed.

(** A list already in descending order is left as it is. *)
Lemma stable_sort_desc_sorted_id (l : list A) :
  StronglySorted (desc le) l -> stable_sort_desc le l = l.
Proof.
  induction 1 as [|x t Ht IH Hx]; simpl; [done|].
  rewrite IH. destruct Hx as [|y t' Hy _]; simpl; [done|].
  unfold desc in Hy. by rewrite Hy.
Qed.

(** Stability: the rows that share a key come out in the order in which
    they came in. *)
Lemma insert_desc_tied (z x : A) (l : list A) :
  filter (fun y => tied le z y = true) (insert_desc le x l)
  = filter (fun y => tied le z y = true) (x :: l).
Proof.
  induction l as [|y t IH]; simpl; [done|].
  destruct (le y x) eqn:Hyx; [done|].
  rewrite filter_cons, IH, !filter_cons.
  destruct (decide (tied le z y = true)) as [Hzy|]; [|done].
  destruct (decide (tied le z x = true)) as [Hzx|]; [|done].
  unfold tied in *. apply andb_true_iff in Hzy as [? ?].
  apply andb_true_iff in Hzx as [? ?].
  assert (le y x = true) by eauto. congruence.
Qed.

Lemma stable_sort_desc_stable (z : A) (l : list A) :
  filter (fun y => tied le z y = true) (stable_sort_desc le l)
  = filter (fun y => tied le z y = true) l.
Proof.
  induction l as [|x t IH]; simpl; [done|].
  by rewrite insert_desc_tied, !filter_cons, IH.
Qed.

(** Without ties a descending order of the rows is unique. *)
Lemma no_ties_elem_of (l : list A) (a b : A) :
  no_ties le l = true -> a ∈ l -> b ∈ l ->
  le a b = true -> le b a = true -> a = b.
Proof.
  induction l as [|x t IH]; simpl; intros Hl Ha Hb Hab Hba.
  { by apply elem_of_nil in Ha. }
  apply andb_true_iff in Hl as [Hx Ht].
  rewrite forallb_forall in Hx.
  apply elem_of_cons in Ha as [->|Ha], Hb as [->|Hb]; [done| | |by apply IH].
  - apply list_elem_of_In, Hx in Hb. unfold tied in Hb.
    rewrite Hab, Hba in Hb. done.
  - apply list_elem_of_In, Hx in Ha. unfold tied in Ha.
    rewrite Hab, Hba in Ha. done.
Qed.

End InsertionSortFacts.

(** ** The contract of [sort_values] *)

Lemma score_le_total (a b : string * float) :
  is_nan a.2 = false -> is_nan b.2 = false ->
  score_le a b = true \/ score_le b a = true.
Proof. apply float_leb_total. Qed.

Lemma score_le_trans (a b c : string * float) :
  score_le a b = true -> score_le b c = true -> score_le a c = true.
Proof. apply float_leb_trans. Qed.

Lemma stable_sort_SortValuesDesc : SortValuesDesc (stable_sort_desc score_le).
Proof.
  split.
  - apply stable_sort_desc_perm.
  - apply (stable_sort_desc_sorted _ _ score_le_total score_le_trans).
Qed.

Lemma tie_reversing_sort_SortValuesDesc :
  SortValuesDesc (tie_reversing_sort_desc score_le).
Proof.
  split.
  - apply tie_reversing_sort_desc_perm.
  - apply (tie_reversing_sort_desc_sorted _ _ score_le_total score_le_trans).
Qed.

Lemma dropna_not_nan (poll_df : list (string * float)) :
  Forall (fun row => is_nan row.2 = false) (dropna poll_df).
Proof.
  apply Forall_forall. intros row Hrow.
  by apply list_elem_of_filter in Hrow as [? _].
Qed.

(** ** The official top 12 *)

Lemma votes_le_trans (a b c : OfficialResult) :
  votes_le a b = true -> votes_le b c = true -> votes_le a c = true.
Proof. unfold votes_le. lia. Qed.

Lemma votes_desc_transitive : Transitive (desc votes_le).
Proof. intros a b c Hab Hbc. unfold desc in *. by eapply votes_le_trans. Qed.

(** C1, as amended: the source takes the first 12 rows of the official
    results as they come and never sorts them.  When the rows are already
    in descending order of the votes, this is the list of the
    specification for [top_n = 12]: the rows in descending order of the
    votes, ties in input order, cut after 12 canonical names. *)
Theorem actual_top12_of_ranked (actual_results : list OfficialResult) :
  Sorted (desc votes_le) actual_results ->
  actual_top12_of actual_results = spec_actualTopN actual_results 12.
Proof.
  intros Hranked. unfold actual_top12_of, spec_actualTopN.
  rewrite stable_sort_desc_sorted_id; [done|].
  apply Sorted_StronglySorted; [apply votes_desc_transitive | done].
Qed.

Lemma actual_top12_of_ranked_witness :
  Sorted (desc votes_le) ranked_results
  /\ actual_top12_of ranked_results = spec_actualTopN ranked_results 12.
Proof.
  assert (Sorted (desc votes_le) ranked_results) as Hranked
    by (repeat constructor).
  split; [exact Hranked|]. exact (actual_top12_of_ranked _ Hranked).
Defined.

(** C1 fails as stated: rows that are not in descending order of the votes
    are not reordered, and no [top_n] other than 12 can be asked for. *)
Lemma actual_top12_of_unranked :
  actual_top12_of unranked_results <> spec_actualTopN unranked_results 12
  /\ actual_top12_of ranked_results <> spec_actualTopN ranked_results 2.
Proof. split; vm_compute; discriminate. Qed.

(** ** The predicted top 12 *)

(** C2, as amended: the predicted top 12 of a survey column is made of the
    rows whose score is not NaN, put in descending order of the score by
    [sort_values] and cut after 12 canonical names.  The source does not
    ask for a stable sort, so the order of equal scores is the one
    [sort_values] happens to give; when no two of the scores are equal the
    list is the one of the specification. *)
Theorem get_top12_from_poll_sorted
  (sort_values : list (string * float) -> list (string * float))
  (opinion_polls : OpinionPolls) (poll_column : string) (scores : list float) :
  SortValuesDesc sort_values ->
  polls_column opinion_polls poll_column = Some scores ->
  let present := dropna (zip (polls_names opinion_polls) scores) in
  exists sorted,
    get_top12_from_poll sort_values opinion_polls poll_column
      = Ok (fst <$> take 12 sorted)
    /\ sorted ≡ₚ present
    /\ StronglySorted (desc score_le) sorted
    /\ (no_ties score_le present = true ->
        fst <$> take 12 sorted
        = spec_predictedTopN (polls_names opinion_polls) scores 12).
Proof.
  intros [Hperm Hsorted] Hcolumn present. exists (sort_values present).
  split; [|split; [|split]].
  - unfold get_top12_from_poll, select_poll. by rewrite Hcolumn.
  - apply Hperm.
  - apply Hsorted, dropna_not_nan.
  - intros Hties. unfold spec_predictedTopN. fold present. do 2 f_equal.
    apply (StronglySorted_unique_strong (desc score_le)).
    + intros a b Ha Hb Hab Hba. rewrite Hperm in Ha.
      rewrite stable_sort_desc_perm in Hb.
      by apply (no_ties_elem_of score_le present).
    + apply Hsorted, dropna_not_nan.
    + apply (stable_sort_desc_sorted _ _ score_le_total score_le_trans),
        dropna_not_nan.
    + by rewrite Hperm, stable_sort_desc_perm.
Qed.

Lemma get_top12_from_poll_sorted_witness :
  exists sorted,
    get_top12_from_poll (stable_sort_desc score_le) sample_polls "SWS"
      = Ok (fst <$> take 12 sorted)
    /\ sorted ≡ₚ [("Bong Go", 42%float); ("Erwin Tulfo", 45.5%float)]
    /\ StronglySorted (desc score_le) sorted
    /\ (no_ties score_le [("Bong Go", 42%float); ("Erwin Tulfo", 45.5%float)]
          = true ->
        fst <$> take 12 sorted
        = spec_predictedTopN (polls_names sample_polls) [42; 45.5; nan]%float 12).
Proof.
  exact (get_top12_from_poll_sorted (stable_sort_desc score_le) sample_polls
           "SWS" [42; 45.5; nan]%float stable_sort_SortValuesDesc eq_refl).
Defined.

(** With a stable sort in the place of [sort_values] (as [kind='stable']
    would give) the predicted top 12 is the list of the specification. *)
Lemma get_top12_from_poll_stable (opinion_polls : OpinionPolls)
  (poll_column : string) (scores : list float) :
  polls_column opinion_polls poll_column = Some scores ->
  get_top12_from_poll (stable_sort_desc score_le) opinion_polls poll_column
  = Ok (spec_predictedTopN (polls_names opinion_polls) scores 12).
Proof.
  intros Hcolumn. unfold get_top12_from_poll, select_poll.
  by rewrite Hcolumn.
Qed.

(** C2 fails as stated: on four candidates with the scores 1, 1, 2, 2
    the rows with equal scores come out of the descending [sort_values]
    in the reverse of the input order, where a stable sort keeps the input
    order. *)
Lemma get_top12_from_poll_not_stable :
  SortValuesDesc (tie_reversing_sort_desc score_le)
  /\ get_top12_from_poll (tie_reversing_sort_desc score_le) tied_polls "SWS"
     = Ok ["Ping Lacson"; "Bam Aquino"; "Erwin Tulfo"; "Bong Go"]
  /\ spec_predictedTopN (polls_names tied_polls) [1; 1; 2; 2]%float 12
     = ["Bam Aquino"; "Ping Lacson"; "Bong Go"; "Erwin Tulfo"]
  /\ get_top12_from_poll (tie_reversing_sort_desc score_le) tied_polls "SWS"
     <> Ok (spec_predictedTopN (polls_names tied_polls) [1; 1; 2; 2]%float 12).
Proof.
  split; [apply tie_reversing_sort_SortValuesDesc|].
  repeat split; vm_compute; discriminate || reflexivity.
Qed.

(** ** The comparison results *)

Lemma mapM_Ok {A B : Type} (f : A -> result B) (l : list A) :
  (forall x, x ∈ l -> exists y, f x = Ok y) ->
  exists ys, mapM f l = Ok ys /\ Forall2 (fun x y => f x = Ok y) l ys.
Proof.
  induction l as [|x l IH]; intros Hf.
  - exists []. by split.
  - destruct (Hf x) as [y Hy]; [by left|].
    destruct IH as (ys & Hys & Hall); [intros; apply Hf; by right|].
    exists (y :: ys). split; [|by constructor].
    simpl. rewrite Hy. simpl. by rewrite Hys.
Qed.

Lemma polls_column_found (opinion_polls : OpinionPolls) (poll_column : string) :
  poll_column ∈ poll_columns opinion_polls ->
  exists scores, polls_column opinion_polls poll_column = Some scores.
Proof.
  unfold poll_columns, polls_column. intros Hin.
  apply list_elem_of_fmap in Hin as (column & -> & Hcolumn).
  destruct (list_find_elem_of (fun c => c.1 = column.1) _ column Hcolumn eq_refl)
    as [found ->].
  by eexists.
Qed.

(** The loop of [generate_comparison_results] raises nothing and yields
    one scorecard for each survey column, in header order. *)
Lemma generate_comparison_results_Ok
  (sort_values : list (string * float) -> list (string * float))
  (opinion_polls : OpinionPolls) (actual_top12 : list string) :
  exists cards,
    generate_comparison_results sort_values opinion_polls actual_top12 = Ok cards
    /\ Forall2
         (fun poll_column card =>
            exists scores,
              polls_column opinion_polls poll_column = Some scores
              /\ card = scorecard_of sort_values (polls_names opinion_polls)
                          actual_top12 poll_column scores)
         (poll_columns opinion_polls) cards.
Proof.
  unfold generate_comparison_results.
  destruct (mapM_Ok (compare_poll sort_values opinion_polls actual_top12)
              (poll_columns opinion_polls)) as (cards & Hcards & Hall).
  - intros poll_column Hin.
    destruct (polls_column_found _ _ Hin) as [scores Hscores].
    unfold compare_poll, get_top12_from_poll, select_poll.
    rewrite Hscores. simpl. by eexists.
  - exists cards. split; [done|].
    eapply Forall2_impl; [exact Hall|]. simpl.
    intros poll_column card Hcard.
    assert (exists scores, polls_column opinion_polls poll_column = Some scores)
      as [scores Hscores].
    { unfold compare_poll, get_top12_from_poll, select_poll in Hcard.
      destruct (polls_column opinion_polls poll_column); [by eexists|done]. }
    exists scores. split; [done|].
    unfold compare_poll, get_top12_from_poll, select_poll in Hcard.
    rewrite Hscores in Hcard. simpl in Hcard. by injection Hcard as <-.
Qed.

Lemma generate_comparison_results_cards
  (sort_values : list (string * float) -> list (string * float))
  (opinion_polls : OpinionPolls) (actual_top12 : list string)
  (cards : list Scorecard) (card : Scorecard) :
  generate_comparison_results sort_values opinion_polls actual_top12 = Ok cards ->
  card ∈ cards ->
  exists scores,
    polls_column opinion_polls (Opinion_Polling card) = Some scores
    /\ card = scorecard_of sort_values (polls_names opinion_polls)
                actual_top12 (Opinion_Polling card) scores.
Proof.
  intros Hcards Hcard.
  destruct (generate_comparison_results_Ok sort_values opinion_polls actual_top12)
    as (cards' & Hcards' & Hall).
  rewrite Hcards in Hcards'. injection Hcards' as <-.
  apply list_elem_of_lookup in Hcard as [i Hi].
  destruct (Forall2_lookup_r _ _ _ _ _ Hall Hi)
    as (poll_column & _ & scores & Hscores & ->).
  by exists scores.
Qed.

(** *** The number of correct predictions *)

Lemma correct_count_of_intersection (actual_top12 poll_top12 : list string) :
  NoDup poll_top12 ->
  correct_count_of actual_top12 poll_top12
  = spec_correctCount poll_top12 actual_top12.
Proof.
  intros Hnodup. unfold correct_count_of, spec_correctCount.
  rewrite <- (size_list_to_set (C := gset string));
    [|by apply NoDup_filter].
  f_equal. apply set_eq. intros candidate.
  rewrite elem_of_intersection, !elem_of_list_to_set, list_elem_of_filter.
  tauto.
Qed.

Lemma correct_count_of_perm (actual_top12 ranking ranking' : list string) :
  ranking ≡ₚ ranking' ->
  correct_count_of actual_top12 ranking = correct_count_of actual_top12 ranking'.
Proof. intros Hperm. unfold correct_count_of. by rewrite Hperm. Qed.

(** For a predicted top 12 without a repeated name the number of correct
    predictions is the size of the intersection of the predicted and the
    official top 12, seen as sets; in any case it depends on which names
    are predicted, not on their ranks. *)
Lemma correct_predictions_intersection
  (sort_values : list (string * float) -> list (string * float))
  (opinion_polls : OpinionPolls) (actual_top12 : list string)
  (cards : list Scorecard) (card : Scorecard) :
  generate_comparison_results sort_values opinion_polls actual_top12 = Ok cards ->
  card ∈ cards ->
  NoDup (Predicted_Top_12 card) ->
  Correct_Predictions card
  = spec_correctCount (Predicted_Top_12 card) actual_top12
  /\ forall ranking,
       ranking ≡ₚ Predicted_Top_12 card ->
       correct_count_of actual_top12 ranking = Correct_Predictions card.
Proof.
  intros Hcards Hcard Hnodup.
  destruct (generate_comparison_results_cards _ _ _ _ _ Hcards Hcard)
    as (scores & _ & Hcard').
  assert (Correct_Predictions card
          = correct_count_of actual_top12 (Predicted_Top_12 card)) as ->
    by (by rewrite Hcard').
  split; [by apply correct_count_of_intersection|].
  intros ranking Hperm. by apply correct_count_of_perm.
Qed.

Lemma correct_predictions_intersection_witness :
  let card := {| Opinion_Polling := "SWS"; Correct_Predictions := 1;
                 Accuracy := (float_of_nat 1 / 12 * 100)%float;
                 Predicted_Top_12 := ["Erwin Tulfo"; "Bong Go"] |} in
  Correct_Predictions card
  = spec_correctCount (Predicted_Top_12 card) ["Bong Go"; "Bam Aquino"]
  /\ forall ranking,
       ranking ≡ₚ Predicted_Top_12 card ->
       correct_count_of ["Bong Go"; "Bam Aquino"] ranking
       = Correct_Predictions card.
Proof.
  refine (correct_predictions_intersection (stable_sort_desc score_le)
            sample_polls ["Bong Go"; "Bam Aquino"]
            [_; {| Opinion_Polling := "OCTA"; Correct_Predictions := 0;
                   Accuracy := 0%float;
                   Predicted_Top_12 := ["Erwin Tulfo"] |}] _ _ _ _).
  - vm_compute. reflexivity.
  - apply list_elem_of_here.
  - apply (bool_decide_unpack _). vm_compute. exact I.
Defined.

(** C3, the code at the failing input: line 49 counts the places of the
    predicted list that hold a name of the official top 12, where its
    comment and the claim count the names of the official top 12 that the
    predicted list holds.  A name that two rows of the survey table share
    is counted twice, and the intersection has one element. *)
Theorem correct_predictions_repeated_name :
  exists card,
    generate_comparison_results (stable_sort_desc score_le) repeated_polls
      ["Bong Go"] = Ok [card]
    /\ Correct_Predictions card = 2
    /\ spec_correctCount (Predicted_Top_12 card) ["Bong Go"] = 1
    /\ Correct_Predictions card
       <> spec_correctCount (Predicted_Top_12 card) ["Bong Go"].
Proof.
  eexists. split; [vm_compute; reflexivity|].
  repeat split; vm_compute; discriminate || reflexivity.
Qed.

(** *** The accuracy *)

Lemma accuracy_bounds (correct_count : nat) :
  correct_count <= 12 ->
  (0 <=? float_of_nat correct_count / 12 * 100)%float = true
  /\ (float_of_nat correct_count / 12 * 100 <=? 100)%float = true.
Proof.
  intros Hle.
  do 13 (destruct correct_count as [|correct_count];
         [split; vm_compute; reflexivity|]).
  lia.
Qed.

Lemma scorecard_of_bounds
  (sort_values : list (string * float) -> list (string * float))
  (names actual_top12 : list string) (poll_column : string)
  (scores : list float) :
  let card := scorecard_of sort_values names actual_top12 poll_column scores in
  Correct_Predictions card <= length (Predicted_Top_12 card)
  /\ length (Predicted_Top_12 card) <= 12.
Proof.
  simpl. split.
  - apply length_filter.
  - rewrite length_fmap, length_take. lia.
Qed.

(** C10: every scorecard has
    [0 <= correct count <= length of the predicted list <= 12] and an
    accuracy between 0 and 100, whatever the surveys cover. *)
Theorem scorecard_invariant
  (sort_values : list (string * float) -> list (string * float))
  (opinion_polls : OpinionPolls) (actual_top12 : list string) :
  exists cards,
    generate_comparison_results sort_values opinion_polls actual_top12 = Ok cards
    /\ Forall
         (fun card =>
            0 <= Correct_Predictions card
            /\ Correct_Predictions card <= length (Predicted_Top_12 card)
            /\ length (Predicted_Top_12 card) <= 12
            /\ (0 <=? Accuracy card)%float = true
            /\ (Accuracy card <=? 100)%float = true)
         cards.
Proof.
  destruct (generate_comparison_results_Ok sort_values opinion_polls actual_top12)
    as (cards & Hcards & _).
  exists cards. split; [done|]. apply Forall_forall. intros card Hcard.
  destruct (generate_comparison_results_cards _ _ _ _ _ Hcards Hcard)
    as (scores & _ & Hcard').
  destruct (scorecard_of_bounds sort_values (polls_names opinion_polls)
              actual_top12 (Opinion_Polling card) scores) as [Hcorrect Hlength].
  rewrite <- Hcard' in Hcorrect, Hlength.
  split; [apply Nat.le_0_l|]. split; [done|]. split; [done|].
  rewrite Hcard'. apply accuracy_bounds. rewrite Hcard' in Hcorrect, Hlength.
  etrans; [exact Hcorrect|exact Hlength].
Qed.

(** C6: every survey column gets one scorecard, in header order.  Its
    predicted list is made of the rows with a score, in the order
    [sort_values] gives them, cut after 12; its correct count is the number
    of places of that list that hold a name of the official top 12; its
    accuracy is the correct count divided by 12 and multiplied by 100, as a
    binary64 number that is not rounded any further.  When fewer than 12
    rows have a score, the predicted list is made of all of them and is
    that much shorter than 12, the correct count counts the present rows
    only, and the divisor is still 12. *)
Theorem accuracy_of_scorecards
  (sort_values : list (string * float) -> list (string * float))
  (opinion_polls : OpinionPolls) (actual_top12 : list string) :
  SortValuesDesc sort_values ->
  exists cards,
    generate_comparison_results sort_values opinion_polls actual_top12 = Ok cards
    /\ Forall2
         (fun poll_column card =>
            exists scores,
              polls_column opinion_polls poll_column = Some scores
              /\ Opinion_Polling card = poll_column
              /\ let present :=
                   filter (fun row => is_nan row.2 = false)
                          (zip (polls_names opinion_polls) scores) in
                 Predicted_Top_12 card = (take 12 (sort_values present)).*1
                 /\ length (Predicted_Top_12 card) = 12 `min` length present
                 /\ Correct_Predictions card
                    = length (filter (fun name => name ∈ actual_top12)
                                     (Predicted_Top_12 card))
                 /\ Accuracy card
                    = (float_of_nat (Correct_Predictions card) / 12 * 100)%float
                 /\ Accuracy card = spec_accuracy (Correct_Predictions card) 12
                 /\ (length present < 12 ->
                     Predicted_Top_12 card ≡ₚ present.*1
                     /\ length (Predicted_Top_12 card) = length present
                     /\ Correct_Predictions card
                        = length (filter (fun name => name ∈ actual_top12)
                                         present.*1)
                     /\ Correct_Predictions card <= length present))
         (poll_columns opinion_polls) cards.
Proof.
  intros [Hperm _].
  destruct (generate_comparison_results_Ok sort_values opinion_polls actual_top12)
    as (cards & Hcards & Hall).
  exists cards. split; [done|].
  eapply Forall2_impl; [exact Hall|].
  intros poll_column card (scores & Hscores & ->).
  exists scores. split; [done|]. split; [done|].
  unfold scorecard_of, correct_count_of, dropna. cbn zeta.
  cbn [Predicted_Top_12 Correct_Predictions Accuracy].
  set (present := filter (fun row : string * float => is_nan row.2 = false)
                         (zip (polls_names opinion_polls) scores)).
  assert (length (sort_values present) = length present) as Hlength
    by (by rewrite Hperm).
  split; [done|]. split; [by rewrite length_fmap, length_take, Hlength|].
  split; [done|]. split; [done|]. split; [done|].
  intros Hfew.
  assert (take 12 (sort_values present) = sort_values present) as ->
    by (apply take_ge; lia).
  assert ((sort_values present).*1 ≡ₚ present.*1) as Hnames
    by (by rewrite Hperm).
  split; [done|]. split; [by rewrite !length_fmap|].
  split; [by rewrite Hnames|].
  etrans; [apply length_filter|]. by rewrite length_fmap, Hlength.
Qed.

Lemma accuracy_of_scorecards_witness :
  SortValuesDesc (stable_sort_desc score_le)
  /\ exists cards,
       generate_comparison_results (stable_sort_desc score_le) sample_polls
         ["Bong Go"; "Bam Aquino"] = Ok cards
       /\ Forall2
            (fun poll_column card =>
               exists scores,
                 polls_column sample_polls poll_column = Some scores
                 /\ Opinion_Polling card = poll_column
                 /\ let present :=
                      filter (fun row => is_nan row.2 = false)
                             (zip (polls_names sample_polls) scores) in
                    Predicted_Top_12 card = (take 12 (stable_sort_desc score_le present)).*1
                    /\ length (Predicted_Top_12 card) = 12 `min` length present
                    /\ Correct_Predictions card
                       = length (filter (fun name => name ∈ ["Bong Go"; "Bam Aquino"])
                                        (Predicted_Top_12 card))
                    /\ Accuracy card
                       = (float_of_nat (Correct_Predictions card) / 12 * 100)%float
                    /\ Accuracy card = spec_accuracy (Correct_Predictions card) 12
                    /\ (length present < 12 ->
                        Predicted_Top_12 card ≡ₚ present.*1
                        /\ length (Predicted_Top_12 card) = length present
                        /\ Correct_Predictions card
                           = length (filter (fun name => name ∈ ["Bong Go"; "Bam Aquino"])
                                            present.*1)
                        /\ Correct_Predictions card <= length present))
            (poll_columns sample_polls) cards.
Proof.
  split; [exact stable_sort_SortValuesDesc|].
  exact (accuracy_of_scorecards (stable_sort_desc score_le) sample_polls
           ["Bong Go"; "Bam Aquino"] stable_sort_SortValuesDesc).
Defined.

(** ** Name standardisation *)

Example standardize_name_dela_cruz :
  standardize_name "Dela Cruz, Juan" = "Juan Dela Cruz".
Proof. vm_compute. reflexivity. Qed.
Example standardize_name_pacquiao :
  standardize_name "PACQUIAO, MANNY PACMAN" = "Manny Pacquiao".
Proof. vm_compute. reflexivity. Qed.
Example standardize_name_lacson :
  standardize_name "LACSON, PANFILO" = "Ping Lacson".
Proof. vm_compute. reflexivity. Qed.
Example standardize_name_tolentino :
  standardize_name "Francis Tol Tolentino" = "Francis Tolentino".
Proof. vm_compute. reflexivity. Qed.

(** C4: when the title-cased name is, up to case, a key of
    [specific_cases], [standardize_name] returns the value of that key at
    once; comma inversion, nickname removal and the table of name variations
    are not applied. *)
Theorem standardize_name_specific_case (name key value : string) :
  (key, value) ∈ specific_cases ->
  Py.lower (Py.title name) = Py.lower key ->
  standardize_name name = value.
Proof.
  intros Hin Hkey. unfold standardize_name, specific_case.
  rewrite Hkey. unfold specific_cases in Hin.
  repeat (apply elem_of_cons in Hin as [[= -> ->]|Hin];
          [vm_compute; reflexivity|]).
  by apply elem_of_nil in Hin.
Qed.

Lemma standardize_name_specific_case_witness :
  (("Go, Bong Go", "Bong Go") ∈ specific_cases
   /\ Py.lower (Py.title "go, bong go") = Py.lower "Go, Bong Go")
  /\ standardize_name "go, bong go" = "Bong Go".
Proof.
  assert (("Go, Bong Go", "Bong Go") ∈ specific_cases) as Hin
    by apply list_elem_of_here.
  assert (Py.lower (Py.title "go, bong go") = Py.lower "Go, Bong Go") as Hkey
    by reflexivity.
  split; [by split|].
  exact (standardize_name_specific_case "go, bong go" "Go, Bong Go" "Bong Go"
           Hin Hkey).
Defined.

(** The general rules alone would turn this name into something else. *)
Lemma general_rules_go_bong_go :
  general_rules (Py.title "go, bong go") = "Bong Go Go".
Proof. vm_compute. reflexivity. Qed.

(** ** The numeric conversion of the survey table *)

Lemma contains_char (c : ascii) (s : string) :
  Py.contains (String c "") s = true <-> c ∈ String.list_ascii_of_string s.
Proof.
  induction s as [|a t IH]; simpl.
  - split; [done|]. by intros ?%elem_of_nil.
  - rewrite elem_of_cons, <- IH, orb_true_iff.
    destruct (ascii_dec c a) as [->|Hne].
    + split; intros _; left; [done|by destruct t].
    + split; intros [?|?]; auto; done.
Qed.

Lemma not_contains_char (c : ascii) (s : string) :
  c ∉ String.list_ascii_of_string s -> Py.contains (String c "") s = false.
Proof.
  intros Hnot. apply not_true_is_false. by rewrite contains_char.
Qed.

Lemma prefix_empty (s : string) : String.prefix "" s = true.
Proof. by destruct s. Qed.

Lemma replace_from_cons (old new : string) (skip : nat) (a : ascii) (t : string) :
  Py.replace_from old new skip (String a t)
  = match skip with
    | S k => Py.replace_from old new k t
    | O => if String.prefix old (String a t)
           then new +:+ Py.replace_from old new (String.length old - 1) t
           else String a (Py.replace_from old new 0 t)
    end.
Proof. reflexivity. Qed.

(** Deleting the occurrences of [old] brings in no new character. *)
Lemma replace_from_empty_chars (old : string) (skip : nat) (s : string) (c : ascii) :
  c ∈ String.list_ascii_of_string (Py.replace_from old "" skip s) ->
  c ∈ String.list_ascii_of_string s.
Proof.
  revert skip. induction s as [|a t IH]; intros skip; [done|].
  rewrite replace_from_cons.
  destruct skip as [|skip]; [destruct (String.prefix old (String a t))|];
    cbn [String.list_ascii_of_string String.append]; rewrite ?elem_of_cons.
  - intros Hc. right. by eapply IH.
  - intros [->|Hc]; [by left|right; by eapply IH].
  - intros Hc. right. by eapply IH.
Qed.

(** Deleting the occurrences of a character leaves none of them. *)
Lemma replace_char_gone (c : ascii) (s : string) :
  c ∉ String.list_ascii_of_string (Py.replace (String c "") "" s).
Proof.
  unfold Py.replace. induction s as [|a t IH].
  - by intros ?%elem_of_nil.
  - rewrite replace_from_cons. simpl.
    destruct (ascii_dec c a) as [->|Hne]; rewrite ?prefix_empty; simpl; [done|].
    rewrite elem_of_cons. by intros [?|?].
Qed.

Lemma lstrip_chars (s : string) (c : ascii) :
  c ∈ String.list_ascii_of_string (Py.lstrip s) ->
  c ∈ String.list_ascii_of_string s.
Proof.
  induction s as [|a t IH]; simpl; [done|].
  destruct (Py.isspace a); [|done]. intros Hc. right. by apply IH.
Qed.

Lemma rstrip_chars (s : string) (c : ascii) :
  c ∈ String.list_ascii_of_string (Py.rstrip s) ->
  c ∈ String.list_ascii_of_string s.
Proof.
  induction s as [|a t IH]; simpl; [done|].
  destruct (Py.rstrip t) as [|b r]; simpl in *.
  - destruct (Py.isspace a); simpl; [by intros ?%elem_of_nil|].
    rewrite !elem_of_cons. intros [->|?%elem_of_nil]; [by left|done].
  - rewrite !elem_of_cons. intros [->|Hc]; [by left|].
    right. apply IH. by rewrite elem_of_cons.
Qed.

Lemma strip_chars (s : string) (c : ascii) :
  c ∈ String.list_ascii_of_string (Py.strip s) ->
  c ∈ String.list_ascii_of_string s.
Proof. intros Hc. by apply lstrip_chars, rstrip_chars. Qed.

(** A cleaned cell has neither a percentage sign nor an asterisk. *)
Lemma clean_cell_stripped (s : string) :
  Py.contains "%" (clean_cell s) = false
  /\ Py.contains "*" (clean_cell s) = false.
Proof.
  unfold clean_cell. split; apply not_contains_char; intros Hc;
    apply strip_chars in Hc.
  - do 2 apply replace_from_empty_chars in Hc.
    by apply replace_char_gone in Hc.
  - by apply replace_char_gone in Hc.
Qed.

Lemma convert_column_Some (parse_float : string -> option float)
  (df : list (string * list string)) (col : string) (raw : list string)
  (column : string * list cell) :
  parse_float "" = None ->
  convert_column parse_float df (col, raw) = Some column ->
  (is_poll_column col = true ->
   header_count df col = 1
   /\ exists cells,
        column = (col, cells) /\ Forall2 (converted parse_float) raw cells)
  /\ (is_poll_column col = false -> column = (col, Text <$> raw)).
Proof.
  intros Hempty. unfold convert_column. cbn [fst snd].
  destruct (is_poll_column col); [|intros [= <-]; by split].
  destruct (decide (header_count df col = 1)) as [Hcount|]; [|done].
  intros [= <-]. split; [|done]. intros _. split; [done|].
  eexists. split; [done|].
  apply Forall2_fmap_r, Forall_Forall2_diag, Forall_forall.
  intros s _. unfold converted, to_numeric_coerce. cbn zeta.
  destruct (clean_cell_stripped s) as [Hpercent Hstar].
  split; [done|]. split; [done|]. split.
  - by destruct (parse_float (clean_cell s)).
  - intros [->|Htext].
    + change (clean_cell "") with "". by rewrite Hempty.
    + by rewrite Htext, Hempty.
Qed.

(** C8, as amended: a column after the first two is treated as a survey
    when its header contains the name of one of the eight polling
    organisations.  When no such header occurs twice in the table, each
    cell of such a column is cleaned of percentage signs and asterisks and
    parsed as a number; a cell that cannot be parsed becomes NaN, and so
    does a cell that is empty or is cleaned to nothing, the parser reading
    no number in the empty text; every other column keeps its text.  When
    such a header occurs twice, the conversion raises. *)
Theorem convert_poll_columns_cells (parse_float : string -> option float)
  (df : list (string * list string)) :
  parse_float "" = None ->
  (is_nan nan = true /\ (nan =? 0)%float = false)
  /\ match convert_poll_columns parse_float df with
  | Some frame =>
      Forall (fun column =>
                is_poll_column column.1 = true ->
                header_count df column.1 = 1)
             (drop 2 df)
      /\ length frame = length df
      /\ forall i col raw,
           df !! i = Some (col, raw) ->
           (2 <= i -> is_poll_column col = true ->
            exists cells,
              frame !! i = Some (col, cells)
              /\ Forall2 (converted parse_float) raw cells)
           /\ (i < 2 \/ is_poll_column col = false ->
               frame !! i = Some (col, Text <$> raw))
  | None =>
      Exists (fun column =>
                is_poll_column column.1 = true
                /\ header_count df column.1 <> 1)
             (drop 2 df)
  end.
Proof.
  intros Hempty. split; [by split|].
  unfold convert_poll_columns.
  destruct (mapM (convert_column parse_float df) (drop 2 df))
    as [columns|] eqn:Hcolumns; cbn [mbind option_bind].
  - apply mapM_Some in Hcolumns.
    assert (length columns = length (drop 2 df)) as Hlength
      by (symmetry; by eapply Forall2_length).
    split; [|split].
    + apply Forall_forall. intros [col raw] Hin Hpoll.
      apply list_elem_of_lookup in Hin as [j Hj].
      destruct (Forall2_lookup_l _ _ _ _ _ Hcolumns Hj) as (column & _ & Hcolumn).
      by destruct (proj1 (convert_column_Some _ _ _ _ _ Hempty Hcolumn) Hpoll).
    + rewrite length_app, length_fmap, Hlength, <- length_app, take_drop. done.
    + intros i col raw Hi.
      assert (2 <= i ->
              exists column,
                ((text_column <$> take 2 df) ++ columns)%list !! i = Some column
                /\ convert_column parse_float df (col, raw) = Some column)
        as Hturn.
      { intros Hle.
        assert (drop 2 df !! (i - 2) = Some (col, raw)) as Hj.
        { rewrite lookup_drop. by replace (2 + (i - 2)) with i by lia. }
        destruct (Forall2_lookup_l _ _ _ _ _ Hcolumns Hj)
          as (column & Hcolumn & Hturn).
        exists column. split; [|done].
        rewrite lookup_app_r; rewrite length_fmap, length_take_le;
          try (apply lookup_lt_Some in Hi; lia). done. }
      assert (i < 2 ->
              ((text_column <$> take 2 df) ++ columns)%list !! i
              = Some (col, Text <$> raw)) as Hskipped.
      { intros Hlt.
        rewrite lookup_app_l; [|rewrite length_fmap, length_take;
                                 apply lookup_lt_Some in Hi; lia].
        rewrite list_lookup_fmap, lookup_take_lt by done. by rewrite Hi. }
      split.
      * intros Hle Hpoll. destruct (Hturn Hle) as (column & Hcolumn & Hsome).
        destruct (proj1 (convert_column_Some _ _ _ _ _ Hempty Hsome) Hpoll)
          as (_ & cells & -> & Hcells).
        by exists cells.
      * intros [Hlt|Hother]; [by apply Hskipped|].
        destruct (decide (i < 2)) as [Hlt|Hge]; [by apply Hskipped|].
        destruct (Hturn ltac:(lia)) as (column & Hcolumn & Hsome).
        by rewrite (proj2 (convert_column_Some _ _ _ _ _ Hempty Hsome) Hother)
          in Hcolumn.
  - apply mapM_None in Hcolumns.
    eapply Exists_impl; [exact Hcolumns|].
    intros [col raw]. unfold convert_column. cbn [fst snd].
    destruct (is_poll_column col); [|done].
    by destruct (decide (header_count df col = 1)).
Qed.

Lemma convert_poll_columns_cells_witness :
  parse_unsigned "" = None
  /\ (is_nan nan = true /\ (nan =? 0)%float = false)
  /\ match convert_poll_columns parse_unsigned raw_polls with
  | Some frame =>
      Forall (fun column =>
                is_poll_column column.1 = true ->
                header_count raw_polls column.1 = 1)
             (drop 2 raw_polls)
      /\ length frame = length raw_polls
      /\ forall i col raw,
           raw_polls !! i = Some (col, raw) ->
           (2 <= i -> is_poll_column col = true ->
            exists cells,
              frame !! i = Some (col, cells)
              /\ Forall2 (converted parse_unsigned) raw cells)
           /\ (i < 2 \/ is_poll_column col = false ->
               frame !! i = Some (col, Text <$> raw))
  | None =>
      Exists (fun column =>
                is_poll_column column.1 = true
                /\ header_count raw_polls column.1 <> 1)
             (drop 2 raw_polls)
  end.
Proof.
  split; [reflexivity|].
  exact (convert_poll_columns_cells parse_unsigned raw_polls eq_refl).
Defined.

(** C8 fails as stated: a survey column whose header names none of the
    eight organisations is not converted. *)
Lemma convert_poll_columns_other_header :
  convert_poll_columns parse_unsigned raw_polls
  = Some [ ("Candidate", [Text "Go, Bong Go"; Text "Tulfo, Erwin"]);
           ("Party", [Text "PDP"; Text "Lakas"]);
           ("SWS Jan 2025", [Number 42; Number nan]);
           ("Tangere Jan 2025", [Text "45%"; Text "n/a"]);
           ("Standardized Name", [Text "Bong Go"; Text "Erwin Tulfo"]) ].
Proof. vm_compute. reflexivity. Qed.

(** Two survey columns with the same header: [df[col]] is a frame and the
    conversion raises at the first of them. *)
Example convert_poll_columns_repeated_header :
  convert_poll_columns parse_unsigned repeated_header_polls = None.
Proof. reflexivity. Qed.

(** ** Applying [standardize_name] twice *)

Ltac ascii_cases c :=
  let b0 := fresh in let b1 := fresh in let b2 := fresh in let b3 := fresh in
  let b4 := fresh in let b5 := fresh in let b6 := fresh in let b7 := fresh in
  destruct c as [b0 b1 b2 b3 b4 b5 b6 b7];
  destruct b0, b1, b2, b3, b4, b5, b6, b7.

Lemma cased_isword (c : ascii) : Py.iscased c = true -> Py.isword c = true.
Proof. ascii_cases c; vm_compute; congruence. Qed.

Lemma isspace_not_word (c : ascii) : Py.isspace c = true -> Py.isword c = false.
Proof. ascii_cases c; vm_compute; congruence. Qed.

Lemma to_upper_fixed (c : ascii) : Py.to_upper (Py.to_upper c) = Py.to_upper c.
Proof. ascii_cases c; vm_compute; reflexivity. Qed.

Lemma to_lower_fixed (c : ascii) : Py.to_lower (Py.to_lower c) = Py.to_lower c.
Proof. ascii_cases c; vm_compute; reflexivity. Qed.

Lemma cased_to_upper (c : ascii) : Py.iscased (Py.to_upper c) = Py.iscased c.
Proof. ascii_cases c; vm_compute; reflexivity. Qed.

Lemma cased_to_lower (c : ascii) : Py.iscased (Py.to_lower c) = Py.iscased c.
Proof. ascii_cases c; vm_compute; reflexivity. Qed.

Lemma title_from_cons (b : bool) (c : ascii) (t : string) :
  Py.title_from b (String c t)
  = String (title_char b c) (Py.title_from (Py.iscased c) t).
Proof.
  unfold title_char. simpl. by destruct (Py.iscased c).
Qed.

Lemma title_char_fixed (b : bool) (c : ascii) :
  title_char b (title_char b c) = title_char b c.
Proof.
  unfold title_char. destruct (Py.iscased c) eqn:Hc; [|by rewrite Hc].
  destruct b; rewrite ?cased_to_lower, ?cased_to_upper, Hc,
    ?to_lower_fixed, ?to_upper_fixed; done.
Qed.

Lemma cased_title_char (b : bool) (c : ascii) :
  Py.iscased (title_char b c) = Py.iscased c.
Proof.
  unfold title_char. destruct (Py.iscased c) eqn:Hc; [|done].
  destruct b; by rewrite ?cased_to_lower, ?cased_to_upper.
Qed.

Lemma titled_cons (b : bool) (c : ascii) (t : string) :
  titled b (String c t) <-> title_char b c = c /\ titled (Py.iscased c) t.
Proof.
  unfold titled. rewrite title_from_cons. split; [by intros [= ? ?]|].
  by intros [-> ->].
Qed.

Lemma titled_nil (b : bool) : titled b "".
Proof. done. Qed.

Lemma title_from_titled (b : bool) (s : string) : titled b (Py.title_from b s).
Proof.
  revert b. induction s as [|c t IH]; intros b; [done|].
  rewrite title_from_cons. apply titled_cons.
  rewrite title_char_fixed, cased_title_char. split; [done|apply IH].
Qed.

Lemma titled_uncased (b b' : bool) (c : ascii) (t : string) :
  Py.iscased c = false -> titled b (String c t) -> titled b' (String c t).
Proof.
  intros Hc. rewrite !titled_cons. unfold title_char. by rewrite Hc.
Qed.

Lemma titled_app_uncased (b : bool) (p : string) (c : ascii) (rest : string) :
  Py.iscased c = false -> titled b p -> titled false rest ->
  titled b (p +:+ String c rest).
Proof.
  intros Hc. revert b. induction p as [|a p IH]; intros b Hp Hrest.
  - simpl. apply titled_cons. unfold title_char. rewrite Hc. by split.
  - simpl. apply titled_cons in Hp as [Ha Hp]. apply titled_cons.
    split; [done|]. by apply IH.
Qed.

Lemma titled_join (ps : list string) :
  Forall (titled false) ps -> titled false (Py.join " " ps).
Proof.
  induction 1 as [|p ps Hp Hps IH]; [done|].
  destruct ps as [|q ps]; [done|].
  change (Py.join " " (p :: q :: ps))
    with (p +:+ String " " (Py.join " " (q :: ps))).
  by apply titled_app_uncased.
Qed.

Lemma titled_split (b : bool) (s : string) :
  titled b s ->
  exists p ps, Py.split "," s = p :: ps /\ titled b p /\ Forall (titled false) ps.
Proof.
  revert b. induction s as [|c t IH]; intros b Hs.
  - exists "", []. by repeat split.
  - apply titled_cons in Hs as [Hc Ht].
    destruct (IH _ Ht) as (p & ps & Hsplit & Hp & Hps). simpl.
    destruct (Ascii.eqb c ",") eqn:Hcomma.
    + apply Ascii.eqb_eq in Hcomma as ->. rewrite Hsplit.
      exists "", (p :: ps). split; [done|]. split; [done|].
      by constructor.
    + rewrite Hsplit. exists (String c p), ps. split; [done|].
      split; [|done]. by apply titled_cons.
Qed.

Lemma titled_lstrip (s : string) : titled false s -> titled false (Py.lstrip s).
Proof.
  induction s as [|c t IH]; [done|]. intros Hs. simpl.
  destruct (Py.isspace c) eqn:Hc; [|done].
  apply IH. apply titled_cons in Hs as [_ Ht].
  replace (Py.iscased c) with false in Ht; [done|].
  clear -Hc. revert Hc. ascii_cases c; vm_compute; congruence.
Qed.

Lemma titled_rstrip (b : bool) (s : string) : titled b s -> titled b (Py.rstrip s).
Proof.
  revert b. induction s as [|c t IH]; intros b Hs; [done|].
  apply titled_cons in Hs as [Hc Ht]. apply IH in Ht. simpl.
  destruct (Py.rstrip t) as [|d r].
  - destruct (Py.isspace c); [done|]. by apply titled_cons.
  - by apply titled_cons.
Qed.

Lemma titled_strip (s : string) : titled false s -> titled false (Py.strip s).
Proof. intros Hs. by apply titled_rstrip, titled_lstrip. Qed.

Lemma titled_invert_commas (s : string) :
  titled false s -> titled false (invert_commas s).
Proof.
  intros Hs. unfold invert_commas.
  destruct (Py.contains "," s); [|done].
  destruct (titled_split _ _ Hs) as (p & ps & -> & Hp & Hps).
  destruct (2 <=? length (p :: ps)); [|done].
  apply titled_join, Forall_fmap, Forall_app. simpl. split.
  - eapply Forall_impl; [exact Hps|]. intros q Hq. by apply titled_strip.
  - constructor; [|done]. by apply titled_strip.
Qed.

Lemma re_sub_word_from_cons (word : string) (pw : bool) (skip : nat)
  (c : ascii) (t : string) :
  Py.re_sub_word_from word pw skip (String c t)
  = match skip with
    | S k => Py.re_sub_word_from word (Py.isword c) k t
    | O => if Py.word_at word pw (String c t)
           then Py.re_sub_word_from word (Py.isword c) (String.length word - 1) t
           else String c (Py.re_sub_word_from word (Py.isword c) 0 t)
    end.
Proof. reflexivity. Qed.

Lemma isspace_not_cased (c : ascii) : Py.isspace c = true -> Py.iscased c = false.
Proof. ascii_cases c; vm_compute; congruence. Qed.

Lemma not_word_not_cased (c : ascii) : Py.isword c = false -> Py.iscased c = false.
Proof.
  intros Hc. destruct (Py.iscased c) eqn:Hcased; [|done].
  apply cased_isword in Hcased. congruence.
Qed.

Lemma titled_re_sub_word_from (w0 : ascii) (word' : string) (s : string) :
  forall (b b' pw : bool) (skip : nat),
    titled b s ->
    (skip = 0 /\ b' = b /\ (b = true -> pw = true))
    \/ (b' = false /\ Py.boundary_after skip s = true) ->
    titled b' (Py.re_sub_word_from (String w0 word') pw skip s).
Proof.
  induction s as [|c t IH]; intros b b' pw skip Hs Hinv; [done|].
  rewrite re_sub_word_from_cons. destruct skip as [|k].
  - assert (titled b' (String c t) /\ (b' = true -> pw = true)) as [Hs' Hpw].
    { destruct Hinv as [(_ & -> & Hpw)|[-> Hc]]; [done|]. split; [|done].
      eapply titled_uncased; [|exact Hs]. apply not_word_not_cased.
      unfold Py.boundary_after in Hc. simpl in Hc. by apply negb_true_iff. }
    apply titled_cons in Hs as [_ Ht]. apply titled_cons in Hs' as [Hc _].
    destruct (Py.word_at (String w0 word') pw (String c t)) eqn:Hm.
    + unfold Py.word_at in Hm. apply andb_true_iff in Hm as [Hm Hafter].
      apply andb_true_iff in Hm as [Hpw' _]. apply negb_true_iff in Hpw'.
      apply (IH (Py.iscased c)); [done|]. right. split.
      * destruct b'; [|done]. rewrite Hpw in Hpw'; done.
      * simpl. by rewrite Nat.sub_0_r.
    + apply titled_cons. split; [done|].
      apply (IH (Py.iscased c)); [done|]. left. repeat split. apply cased_isword.
  - destruct Hinv as [(? & _)|[-> Hafter]]; [done|].
    apply titled_cons in Hs as [_ Ht].
    apply (IH (Py.iscased c)); [done|]. by right.
Qed.

Lemma titled_re_sub_word (w0 : ascii) (word' s : string) :
  titled false s -> titled false (Py.re_sub_word (String w0 word') s).
Proof.
  intros Hs. apply (titled_re_sub_word_from _ _ _ false); [done|]. by left.
Qed.

Lemma titled_remove_nicknames (s : string) :
  titled false s -> titled false (remove_nicknames s).
Proof.
  intros Hs. unfold remove_nicknames. by do 4 apply titled_re_sub_word.
Qed.

Lemma re_sub_spaces_from_cons (r : bool) (c : ascii) (t : string) :
  Py.re_sub_spaces_from r (String c t)
  = if Py.isspace c
    then if r then Py.re_sub_spaces_from true t
         else String " " (Py.re_sub_spaces_from true t)
    else String c (Py.re_sub_spaces_from false t).
Proof. reflexivity. Qed.

Lemma titled_re_sub_spaces_from (s : string) :
  forall b r, (r = true -> b = false) -> titled b s ->
              titled b (Py.re_sub_spaces_from r s).
Proof.
  induction s as [|c t IH]; intros b r Hr Hs; [done|].
  rewrite re_sub_spaces_from_cons. apply titled_cons in Hs as [Hc Ht].
  destruct (Py.isspace c) eqn:Hspace.
  - rewrite (isspace_not_cased c Hspace) in Ht. destruct r.
    + rewrite Hr by done. by apply IH.
    + apply titled_cons. split; [done|]. by apply IH.
  - apply titled_cons. split; [done|]. by apply IH.
Qed.

Lemma titled_re_sub_spaces (s : string) :
  titled false s -> titled false (Py.re_sub_spaces s).
Proof. by apply titled_re_sub_spaces_from. Qed.

(** *** No comma is left *)

Lemma chars_app (s1 s2 : string) :
  String.list_ascii_of_string (s1 +:+ s2)
  = (String.list_ascii_of_string s1 ++ String.list_ascii_of_string s2)%list.
Proof. induction s1 as [|c s1 IH]; simpl; [done|]. by rewrite IH. Qed.

Lemma split_chars (sep : ascii) (s : string) :
  Forall (fun p => sep ∉ String.list_ascii_of_string p) (Py.split sep s).
Proof.
  induction s as [|c t IH]; simpl.
  - constructor; [|done]. by intros ?%elem_of_nil.
  - destruct (Ascii.eqb c sep) eqn:Hc.
    + constructor; [|done]. by intros ?%elem_of_nil.
    + destruct IH as [|p ps Hp Hps].
      * constructor; [|done]. simpl. rewrite elem_of_cons, elem_of_nil.
        intros [->|[]]. by rewrite Ascii.eqb_refl in Hc.
      * constructor; [|done]. simpl. rewrite elem_of_cons.
        intros [->|?]; [|done]. by rewrite Ascii.eqb_refl in Hc.
Qed.

Lemma split_nonempty (sep : ascii) (s : string) : 1 <= length (Py.split sep s).
Proof.
  induction s as [|c t IH]; simpl; [lia|].
  destruct (Ascii.eqb c sep); simpl; [lia|].
  destruct (Py.split sep t); simpl; lia.
Qed.

Lemma split_length (sep : ascii) (s : string) :
  sep ∈ String.list_ascii_of_string s -> 2 <= length (Py.split sep s).
Proof.
  induction s as [|c t IH]; simpl; [by intros ?%elem_of_nil|].
  rewrite elem_of_cons. intros Hin.
  destruct (Ascii.eqb c sep) eqn:Hc.
  - pose proof (split_nonempty sep t). simpl. lia.
  - destruct Hin as [->|Hin]; [by rewrite Ascii.eqb_refl in Hc|].
    apply IH in Hin. destruct (Py.split sep t); simpl in *; lia.
Qed.

Lemma join_chars (sep : string) (ps : list string) (c : ascii) :
  c ∉ String.list_ascii_of_string sep ->
  Forall (fun p => c ∉ String.list_ascii_of_string p) ps ->
  c ∉ String.list_ascii_of_string (Py.join sep ps).
Proof.
  intros Hsep. induction 1 as [|p ps Hp Hps IH]; simpl.
  - by intros ?%elem_of_nil.
  - destruct ps as [|q ps]; [done|].
    rewrite !chars_app, !elem_of_app. tauto.
Qed.

Lemma invert_commas_chars (s : string) :
  ","%char ∉ String.list_ascii_of_string (invert_commas s).
Proof.
  unfold invert_commas. destruct (Py.contains "," s) eqn:Hcomma.
  - assert (","%char ∉ String.list_ascii_of_string (Py.join " " (Py.strip <$>
              (tail (Py.split "," s) ++ take 1 (Py.split "," s))%list))).
    { apply join_chars.
      - simpl. rewrite elem_of_cons, elem_of_nil. by intros [?|[]].
      - apply Forall_fmap.
        assert (Forall (fun p => ","%char ∉ String.list_ascii_of_string p)
                  (tail (Py.split "," s) ++ take 1 (Py.split "," s))%list) as Hall.
        { pose proof (split_chars "," s) as Hsplit.
          apply Forall_app. split.
          - destruct Hsplit; [done|]. done.
          - by apply Forall_take. }
        eapply Forall_impl; [exact Hall|]. intros p Hp Hin. simpl in Hin.
        by apply Hp, strip_chars. }
    apply contains_char, split_length in Hcomma.
    apply Nat.leb_le in Hcomma. by rewrite Hcomma.
  - rewrite <- contains_char, Hcomma. done.
Qed.

Lemma re_sub_word_from_chars (word : string) (pw : bool) (skip : nat)
  (s : string) (c : ascii) :
  c ∈ String.list_ascii_of_string (Py.re_sub_word_from word pw skip s) ->
  c ∈ String.list_ascii_of_string s.
Proof.
  revert pw skip. induction s as [|a t IH]; intros pw skip; [done|].
  rewrite re_sub_word_from_cons.
  destruct skip as [|skip]; [destruct (Py.word_at word pw (String a t))|];
    cbn [String.list_ascii_of_string]; rewrite ?elem_of_cons.
  - intros Hc. right. by eapply IH.
  - intros [->|Hc]; [by left|right; by eapply IH].
  - intros Hc. right. by eapply IH.
Qed.

Lemma remove_nicknames_chars (s : string) (c : ascii) :
  c ∈ String.list_ascii_of_string (remove_nicknames s) ->
  c ∈ String.list_ascii_of_string s.
Proof.
  unfold remove_nicknames, Py.re_sub_word. intros Hc.
  by do 4 apply re_sub_word_from_chars in Hc.
Qed.

Lemma re_sub_spaces_from_chars (r : bool) (s : string) (c : ascii) :
  c ∈ String.list_ascii_of_string (Py.re_sub_spaces_from r s) ->
  c = " "%char \/ c ∈ String.list_ascii_of_string s.
Proof.
  revert r. induction s as [|a t IH]; intros r; [by right|].
  rewrite re_sub_spaces_from_cons.
  destruct (Py.isspace a); [destruct r|]; cbn [String.list_ascii_of_string];
    rewrite ?elem_of_cons.
  - intros [?|?]%IH; auto.
  - intros [->|[?|?]%IH]; auto.
  - intros [->|[?|?]%IH]; auto.
Qed.

Lemma invert_commas_no_comma (s : string) :
  ","%char ∉ String.list_ascii_of_string s -> invert_commas s = s.
Proof.
  intros Hs. unfold invert_commas.
  rewrite (not_contains_char _ _ Hs). done.
Qed.

(** *** White space is single blanks *)

Lemma single_spaced_re_sub_spaces_from (r : bool) (s : string) :
  single_spaced r (Py.re_sub_spaces_from r s) = true.
Proof.
  revert r. induction s as [|c t IH]; intros r; [done|].
  rewrite re_sub_spaces_from_cons. destruct (Py.isspace c) eqn:Hc.
  - destruct r; [apply IH|]. simpl. apply IH.
  - simpl. rewrite Hc. apply IH.
Qed.

Lemma re_sub_spaces_from_single_spaced (r : bool) (s : string) :
  single_spaced r s = true -> Py.re_sub_spaces_from r s = s.
Proof.
  revert r. induction s as [|c t IH]; intros r; [done|].
  rewrite re_sub_spaces_from_cons. simpl.
  destruct (Py.isspace c) eqn:Hc.
  - intros [[->%Ascii.eqb_eq ->%negb_true_iff]%andb_true_iff Ht]%andb_true_iff.
    by rewrite IH.
  - intros Ht. by rewrite IH.
Qed.

Lemma single_spaced_lstrip (r : bool) (s : string) :
  single_spaced r s = true -> single_spaced false (Py.lstrip s) = true.
Proof.
  revert r. induction s as [|c t IH]; intros r; [done|]. simpl.
  destruct (Py.isspace c) eqn:Hc.
  - intros [_ Ht]%andb_true_iff. by eapply IH.
  - intros Ht. simpl. by rewrite Hc.
Qed.

Lemma single_spaced_rstrip (r : bool) (s : string) :
  single_spaced r s = true -> single_spaced r (Py.rstrip s) = true.
Proof.
  revert r. induction s as [|c t IH]; intros r; [done|]. simpl.
  destruct (Py.isspace c) eqn:Hc.
  - intros [Hc' Ht]%andb_true_iff. apply IH in Ht.
    destruct (Py.rstrip t) as [|d u]; [done|].
    simpl in *. rewrite Hc, Hc'. done.
  - intros Ht. apply IH in Ht.
    destruct (Py.rstrip t) as [|d u]; simpl in *; by rewrite Hc.
Qed.

Lemma lstrip_lstrip (s : string) : Py.lstrip (Py.lstrip s) = Py.lstrip s.
Proof.
  induction s as [|c t IH]; [done|]. simpl.
  destruct (Py.isspace c) eqn:Hc; [done|]. simpl. by rewrite Hc.
Qed.

Lemma rstrip_rstrip (s : string) : Py.rstrip (Py.rstrip s) = Py.rstrip s.
Proof.
  induction s as [|c t IH]; [done|]. simpl.
  destruct (Py.rstrip t) as [|d u] eqn:Ht.
  - destruct (Py.isspace c) eqn:Hc; [done|]. simpl. by rewrite Hc.
  - simpl. simpl in IH. by rewrite IH.
Qed.

Lemma lstrip_rstrip (s : string) :
  Py.lstrip s = s -> Py.lstrip (Py.rstrip s) = Py.rstrip s.
Proof.
  destruct s as [|c t]; [done|]. simpl.
  destruct (Py.isspace c) eqn:Hc.
  - intros Hs. exfalso.
    assert (forall u, String.length (Py.lstrip u) <= String.length u) as Hlen.
    { induction u as [|d u IHu]; simpl; [done|].
      destruct (Py.isspace d); simpl; lia. }
    pose proof (Hlen t) as Ht. rewrite Hs in Ht. simpl in Ht. lia.
  - intros _. destruct (Py.rstrip t); simpl; by rewrite Hc.
Qed.

Lemma strip_strip (s : string) : Py.strip (Py.strip s) = Py.strip s.
Proof.
  unfold Py.strip. rewrite lstrip_rstrip by apply lstrip_lstrip.
  apply rstrip_rstrip.
Qed.

(** *** No nickname is left *)

Lemma boundary_after_S (n : nat) (c : ascii) (t : string) :
  Py.boundary_after (S n) (String c t) = Py.boundary_after n t.
Proof. reflexivity. Qed.

Lemma word_at_cons (w0 : ascii) (word' : string) (pw : bool) (c : ascii)
  (t : string) :
  Py.word_at (String w0 word') pw (String c t)
  = negb pw && bool_decide (w0 = c) && ends_at word' t.
Proof.
  unfold Py.word_at, ends_at. simpl. rewrite boundary_after_S.
  destruct (ascii_dec w0 c) as [->|Hne].
  - rewrite bool_decide_eq_true_2 by done.
    by destruct pw, (String.prefix word' t).
  - rewrite bool_decide_eq_false_2 by done. by rewrite !andb_false_r.
Qed.

Lemma has_word_re_sub_word_from (word : string) (pw : bool) (s : string) :
  has_word word pw s = false -> Py.re_sub_word_from word pw 0 s = s.
Proof.
  revert pw. induction s as [|c t IH]; intros pw; [done|].
  rewrite re_sub_word_from_cons. cbn [has_word].
  intros [-> Ht]%orb_false_iff. by rewrite IH.
Qed.

Lemma covered_refl (word : string) (pw : bool) (s : string) :
  covered word word pw s = true.
Proof.
  revert pw. induction s as [|c t IH]; intros pw; [done|].
  cbn [covered]. rewrite IH. by destruct (Py.word_at word pw (String c t)).
Qed.

Lemma covered_no_word (word word' : string) (pw : bool) (s : string) :
  has_word word pw s = false -> covered word word' pw s = true.
Proof.
  revert pw. induction s as [|c t IH]; intros pw; [done|].
  cbn [covered has_word]. intros [-> Ht]%orb_false_iff. by rewrite IH.
Qed.

(** A match seen in [String c r] is a match in [String c t] when the
    strings [r] and [t] start alike. *)
Lemma word_at_reflect (w0 : ascii) (word' : string) (pw : bool) (c : ascii)
  (r t : string) :
  all_word (String w0 word') = true ->
  (Py.isword c = true -> ends_at word' r = true -> ends_at word' t = true) ->
  Py.word_at (String w0 word') pw (String c r) = true ->
  Py.word_at (String w0 word') pw (String c t) = true.
Proof.
  intros [Hw0 _]%andb_true_iff Hreflect. rewrite !word_at_cons.
  intros [[-> Hc]%andb_true_iff Hr]%andb_true_iff. rewrite Hc. simpl.
  apply bool_decide_eq_true in Hc as <-. by apply Hreflect.
Qed.

Lemma ends_at_cons (u0 : ascii) (u : string) (c : ascii) (t : string) :
  ends_at (String u0 u) (String c t) = bool_decide (u0 = c) && ends_at u t.
Proof.
  unfold ends_at. simpl. rewrite boundary_after_S.
  destruct (ascii_dec u0 c) as [->|Hne].
  - by rewrite bool_decide_eq_true_2.
  - by rewrite bool_decide_eq_false_2.
Qed.

Lemma ends_at_nil (u0 : ascii) (u : string) : ends_at (String u0 u) "" = false.
Proof. done. Qed.

Lemma ends_at_empty_cons (c : ascii) (t : string) :
  ends_at "" (String c t) = negb (Py.isword c).
Proof. unfold ends_at. simpl. by destruct t. Qed.

Lemma ends_at_re_sub_word_from (word u : string) (t : string) :
  all_word u = true ->
  ends_at u (Py.re_sub_word_from word true 0 t) = true ->
  ends_at u t = true.
Proof.
  revert t. induction u as [|u0 u IH]; intros t Hu.
  - destruct t as [|d t]; [done|]. rewrite re_sub_word_from_cons.
    unfold Py.word_at. simpl negb. cbn [andb]. by rewrite !ends_at_empty_cons.
  - destruct t as [|d t]; [done|]. rewrite re_sub_word_from_cons.
    unfold Py.word_at. simpl negb. cbn [andb]. rewrite !ends_at_cons.
    apply andb_true_iff in Hu as [Hu0 Hu].
    intros [Hd Hr]%andb_true_iff. rewrite Hd. simpl.
    apply bool_decide_eq_true in Hd as <-. rewrite Hu0 in Hr. by apply IH.
Qed.

Lemma has_word_re_sub_word_from_covered (w0 : ascii) (wt : string)
  (v0 : ascii) (vt : string) (s : string) :
  all_word (String w0 wt) = true -> all_word (String v0 vt) = true ->
  forall (pw pw_out : bool) (skip : nat),
    covered (String w0 wt) (String v0 vt) pw s = true ->
    (skip = 0 /\ pw_out = pw)
    \/ (pw_out = false /\ Py.boundary_after skip s = true) ->
    has_word (String w0 wt) pw_out
      (Py.re_sub_word_from (String v0 vt) pw skip s) = false.
Proof.
  intros Hw Hv. induction s as [|c t IH]; intros pw pw_out skip Hcov Hinv; [done|].
  cbn [covered] in Hcov. apply andb_true_iff in Hcov as [Hhere Hcov].
  rewrite re_sub_word_from_cons. destruct skip as [|k].
  - destruct (Py.word_at (String v0 vt) pw (String c t)) eqn:Hm.
    + apply IH; [done|]. right. split.
      * destruct Hinv as [[_ ->]|[-> _]]; [|done].
        rewrite word_at_cons in Hm. by destruct pw.
      * unfold Py.word_at in Hm. apply andb_true_iff in Hm as [_ Hafter].
        simpl in Hafter. simpl. by rewrite Nat.sub_0_r.
    + cbn [has_word]. rewrite (IH (Py.isword c) (Py.isword c) 0)
        by (done || by left).
      rewrite orb_false_r. apply not_true_is_false. intros Hout.
      destruct Hinv as [[_ ->]|[-> Hc]].
      * apply (word_at_reflect _ _ _ _ _ t Hw) in Hout.
        { rewrite Hout in Hhere. simpl in Hhere. congruence. }
        intros -> Hr. apply andb_true_iff in Hw as [_ Hwt].
        by eapply ends_at_re_sub_word_from.
      * rewrite word_at_cons in Hout.
        apply andb_true_iff in Hout as [[_ Hc']%andb_true_iff _].
        apply bool_decide_eq_true in Hc' as <-.
        apply andb_true_iff in Hw as [Hw0 _].
        unfold Py.boundary_after in Hc. simpl in Hc. rewrite Hw0 in Hc. done.
  - apply IH; [done|]. right. destruct Hinv as [[? _]|[-> Hafter]]; [done|].
    by split.
Qed.

Lemma has_word_re_sub_word_same (w0 : ascii) (wt : string) (s : string) :
  all_word (String w0 wt) = true ->
  has_word (String w0 wt) false (Py.re_sub_word (String w0 wt) s) = false.
Proof.
  intros Hw. apply has_word_re_sub_word_from_covered; [done|done| |by left].
  apply covered_refl.
Qed.

Lemma has_word_re_sub_word_other (w0 : ascii) (wt : string)
  (v0 : ascii) (vt : string) (s : string) :
  all_word (String w0 wt) = true -> all_word (String v0 vt) = true ->
  has_word (String w0 wt) false s = false ->
  has_word (String w0 wt) false (Py.re_sub_word (String v0 vt) s) = false.
Proof.
  intros Hw Hv Hs.
  apply has_word_re_sub_word_from_covered; [done|done| |by left].
  by apply covered_no_word.
Qed.

Lemma isword_blank : Py.isword " " = false.
Proof. reflexivity. Qed.

Lemma ends_at_re_sub_spaces_from (u t : string) :
  all_word u = true ->
  ends_at u (Py.re_sub_spaces_from false t) = true -> ends_at u t = true.
Proof.
  revert t. induction u as [|u0 u IH]; intros t Hu.
  - destruct t as [|d t]; [done|]. rewrite re_sub_spaces_from_cons.
    destruct (Py.isspace d) eqn:Hd; rewrite !ends_at_empty_cons; [|done].
    intros _. by rewrite (isspace_not_word d Hd).
  - destruct t as [|d t]; [done|]. rewrite re_sub_spaces_from_cons.
    apply andb_true_iff in Hu as [Hu0 Hu].
    destruct (Py.isspace d) eqn:Hd; rewrite !ends_at_cons.
    + intros [Hblank _]%andb_true_iff.
      apply bool_decide_eq_true in Hblank as ->. done.
    + intros [-> Hr]%andb_true_iff. simpl. by apply IH.
Qed.

Lemma has_word_re_sub_spaces_from (w0 : ascii) (wt : string) (s : string) :
  all_word (String w0 wt) = true ->
  forall pw r, (r = true -> pw = false) ->
    has_word (String w0 wt) pw s = false ->
    has_word (String w0 wt) pw (Py.re_sub_spaces_from r s) = false.
Proof.
  intros Hw. induction s as [|c t IH]; intros pw r Hr; [done|].
  cbn [has_word]. intros [Hhere Ht]%orb_false_iff.
  rewrite re_sub_spaces_from_cons. destruct (Py.isspace c) eqn:Hc.
  - rewrite (isspace_not_word c Hc) in Ht. destruct r.
    + rewrite Hr by done. by apply IH.
    + cbn [has_word]. rewrite isword_blank, (IH false true) by done.
      rewrite orb_false_r, word_at_cons.
      apply andb_true_iff in Hw as [Hw0 _].
      rewrite bool_decide_eq_false_2; [by rewrite andb_false_r|].
      intros ->. done.
  - cbn [has_word]. rewrite (IH (Py.isword c) false) by done.
    rewrite orb_false_r. apply not_true_is_false. intros Hout.
    apply (word_at_reflect _ _ _ _ _ t Hw) in Hout; [congruence|].
    intros _. apply andb_true_iff in Hw as [_ Hwt].
    by apply ends_at_re_sub_spaces_from.
Qed.

Lemma has_word_lstrip (word : string) (s : string) :
  has_word word false s = false -> has_word word false (Py.lstrip s) = false.
Proof.
  induction s as [|c t IH]; [done|]. simpl.
  destruct (Py.isspace c) eqn:Hc; [|done].
  rewrite (isspace_not_word c Hc). intros [_ Ht]%orb_false_iff. by apply IH.
Qed.

Lemma rstrip_cons (c : ascii) (t r : string) :
  Py.rstrip (String c t) = String c r -> r = Py.rstrip t.
Proof.
  simpl. destruct (Py.rstrip t) as [|d u].
  - destruct (Py.isspace c); [done|]. by intros [= <-].
  - by intros [= <-].
Qed.

Lemma rstrip_head (c : ascii) (t : string) :
  Py.rstrip (String c t) = "" \/ Py.rstrip (String c t) = String c (Py.rstrip t).
Proof.
  simpl. destruct (Py.rstrip t) as [|d u]; [|by right].
  destruct (Py.isspace c); [by left|by right].
Qed.

Lemma rstrip_empty_head (c : ascii) (t : string) :
  Py.rstrip (String c t) = "" -> Py.isspace c = true.
Proof.
  simpl. destruct (Py.rstrip t); [|done]. by destruct (Py.isspace c).
Qed.

Lemma ends_at_rstrip (u t : string) :
  all_word u = true -> ends_at u (Py.rstrip t) = true -> ends_at u t = true.
Proof.
  revert t. induction u as [|u0 u IH]; intros t Hu.
  - destruct t as [|d t]; [done|].
    destruct (rstrip_head d t) as [Hr|Hr]; rewrite Hr.
    + intros _. rewrite ends_at_empty_cons.
      by rewrite (isspace_not_word d (rstrip_empty_head _ _ Hr)).
    + by rewrite !ends_at_empty_cons.
  - destruct t as [|d t]; [done|].
    apply andb_true_iff in Hu as [Hu0 Hu].
    destruct (rstrip_head d t) as [Hr|Hr]; rewrite Hr; [done|].
    rewrite !ends_at_cons. intros [-> Hrest]%andb_true_iff. simpl.
    by apply IH.
Qed.

Lemma has_word_rstrip (w0 : ascii) (wt : string) (s : string) :
  all_word (String w0 wt) = true ->
  forall pw,
    has_word (String w0 wt) pw s = false ->
    has_word (String w0 wt) pw (Py.rstrip s) = false.
Proof.
  intros Hw. induction s as [|c t IH]; intros pw; [done|].
  cbn [has_word]. intros [Hhere Ht]%orb_false_iff.
  destruct (rstrip_head c t) as [Hr|Hr]; rewrite Hr; [done|].
  cbn [has_word]. rewrite IH by done. rewrite orb_false_r.
  apply not_true_is_false. intros Hout.
  apply (word_at_reflect _ _ _ _ _ t Hw) in Hout; [congruence|].
  intros _. apply andb_true_iff in Hw as [_ Hwt]. by apply ends_at_rstrip.
Qed.

Lemma has_word_strip (w0 : ascii) (wt : string) (s : string) :
  all_word (String w0 wt) = true ->
  has_word (String w0 wt) false s = false ->
  has_word (String w0 wt) false (Py.strip s) = false.
Proof. intros Hw Hs. by apply has_word_rstrip, has_word_lstrip. Qed.

Lemma has_word_remove_nicknames (s : string) :
  Forall (fun word => has_word word false (remove_nicknames s) = false)
         nicknames.
Proof.
  unfold remove_nicknames, nicknames.
  repeat constructor;
    repeat first [ by apply has_word_re_sub_word_same
                 | apply has_word_re_sub_word_other; [done|done|] ].
Qed.

Lemma remove_nicknames_fixed (s : string) :
  Forall (fun word => has_word word false s = false) nicknames ->
  remove_nicknames s = s.
Proof.
  unfold nicknames. intros Hs. unfold remove_nicknames, Py.re_sub_word.
  repeat (apply Forall_cons in Hs as [? Hs];
          rewrite (has_word_re_sub_word_from _ _ s) by done).
  done.
Qed.

Lemma nicknames_all_word :
  Forall (fun word => exists w0 wt, word = String w0 wt /\ all_word word = true)
         nicknames.
Proof. repeat constructor; by eexists _, _. Qed.

Lemma fix_variations_cases (name : string) :
  fix_variations name = name
  \/ fix_variations name ∈ snd <$> name_variations.
Proof.
  unfold fix_variations. generalize name_variations. intros table.
  revert name. induction table as [|kv table IH]; intros name; [by left|].
  simpl.
  destruct (Py.contains (Py.lower kv.1) (Py.lower name)).
  - right. destruct (IH kv.2) as [->|Hin]; [by left|by right].
  - destruct (IH name) as [->|Hin]; [by left|right; by right].
Qed.

Lemma canonical_names_tidy :
  Forall (fun name => Py.strip (Py.re_sub_spaces name) = name
                      /\ standardize_name name = name) canonical_names.
Proof.
  apply Forall_forall. intros name Hin.
  unfold canonical_names in Hin. simpl in Hin.
  repeat (apply elem_of_cons in Hin as [->|Hin];
          [split; vm_compute; reflexivity|]).
  by apply elem_of_nil in Hin.
Qed.

Lemma specific_case_canonical (name value : string) :
  specific_case name = Some value -> value ∈ canonical_names.
Proof.
  unfold specific_case, canonical_names.
  destruct (List.find _ _) as [kv|] eqn:Hfind; [|done].
  intros [= <-]. apply List.find_some in Hfind as [Hin _].
  apply elem_of_app. left. apply list_elem_of_fmap. exists kv.
  split; [done|]. by apply list_elem_of_In.
Qed.

Lemma general_rules_shape (name : string) :
  titled false name ->
  general_rules name ∈ canonical_names \/ clean_name (general_rules name).
Proof.
  intros Hname. unfold general_rules.
  destruct (fix_variations_cases (remove_nicknames (invert_commas name)))
    as [->|Hin].
  - right. repeat split.
    + by apply titled_strip, titled_re_sub_spaces, titled_remove_nicknames,
        titled_invert_commas.
    + intros Hc. apply strip_chars, re_sub_spaces_from_chars in Hc as [?|Hc];
        [done|].
      by apply remove_nicknames_chars, invert_commas_chars in Hc.
    + apply Forall_forall. intros word Hin.
      pose proof (has_word_remove_nicknames (invert_commas name)) as Hnone.
      pose proof nicknames_all_word as Hall.
      rewrite Forall_forall in Hnone, Hall.
      destruct (Hall word Hin) as (w0 & wt & -> & Hword).
      apply has_word_strip; [done|].
      apply has_word_re_sub_spaces_from; [done|done|]. by apply Hnone.
    + unfold Py.strip.
      eapply single_spaced_rstrip, single_spaced_lstrip,
        single_spaced_re_sub_spaces_from.
    + apply strip_strip.
  - left. assert (fix_variations (remove_nicknames (invert_commas name))
                  ∈ canonical_names) as Hcanon.
    { unfold canonical_names. apply elem_of_app. by right. }
    pose proof canonical_names_tidy as Htidy.
    rewrite Forall_forall in Htidy. destruct (Htidy _ Hcanon) as [-> _]. done.
Qed.

Lemma standardize_name_shape (name : string) :
  standardize_name name ∈ canonical_names
  \/ clean_name (standardize_name name).
Proof.
  unfold standardize_name.
  destruct (specific_case (Py.title name)) as [value|] eqn:Hcase.
  - left. by eapply specific_case_canonical.
  - apply general_rules_shape, title_from_titled.
Qed.

Lemma clean_name_general_rules (name : string) :
  clean_name name ->
  general_rules name = Py.strip (Py.re_sub_spaces (fix_variations name)).
Proof.
  intros (_ & Hcomma & Hwords & _). unfold general_rules.
  by rewrite invert_commas_no_comma, remove_nicknames_fixed.
Qed.

Lemma clean_name_fixed (name : string) :
  clean_name name -> specific_case name = None ->
  fix_variations name = name -> standardize_name name = name.
Proof.
  intros Hclean Hcase Hfix. unfold standardize_name.
  destruct Hclean as (Htitled & Hclean). unfold titled, Py.title in *.
  rewrite Htitled, Hcase, clean_name_general_rules, Hfix by done.
  destruct Hclean as (_ & _ & Hspaced & Hstrip).
  unfold Py.re_sub_spaces. by rewrite re_sub_spaces_from_single_spaced.
Qed.

(** *** ASCII names *)

Lemma isascii_chars (s : string) :
  Py.isascii s = true
  <-> forall c, c ∈ String.list_ascii_of_string s -> Py.code c < 128.
Proof.
  unfold Py.isascii. rewrite forallb_forall. split.
  - intros Hall c Hc. by apply Nat.ltb_lt, Hall, list_elem_of_In.
  - intros Hall c Hc. by apply Nat.ltb_lt, Hall, list_elem_of_In.
Qed.

Lemma title_char_ascii (b : bool) (c : ascii) :
  Py.code c < 128 -> Py.code (title_char b c) < 128.
Proof.
  destruct b; ascii_cases c; vm_compute; intros H; try exact H; lia.
Qed.

Lemma title_from_isascii (b : bool) (s : string) :
  Py.isascii s = true -> Py.isascii (Py.title_from b s) = true.
Proof.
  rewrite !isascii_chars. revert b.
  induction s as [|a t IH]; intros b Hs c; [by intros ?%elem_of_nil|].
  rewrite title_from_cons. cbn [String.list_ascii_of_string].
  intros [->|Hc]%elem_of_cons.
  - apply title_char_ascii, Hs. by left.
  - apply (IH (Py.iscased a)); [|done]. intros c' Hc'. apply Hs. by right.
Qed.

Lemma split_elem_chars (sep : ascii) (s p : string) (c : ascii) :
  p ∈ Py.split sep s -> c ∈ String.list_ascii_of_string p ->
  c ∈ String.list_ascii_of_string s.
Proof.
  revert p. induction s as [|a t IH]; intros p; cbn [Py.split].
  - by intros ->%list_elem_of_singleton.
  - cbn [String.list_ascii_of_string].
    destruct (Ascii.eqb a sep).
    + intros [->|Hp]%elem_of_cons Hc; [by apply elem_of_nil in Hc|].
      right. by eapply IH.
    + destruct (Py.split sep t) as [|q qs] eqn:Hsplit.
      * intros ->%list_elem_of_singleton. cbn [String.list_ascii_of_string].
        intros [->|Hc]%elem_of_cons; [by left|by apply elem_of_nil in Hc].
      * intros [->|Hp]%elem_of_cons.
        -- cbn [String.list_ascii_of_string].
           intros [->|Hc]%elem_of_cons; [by left|].
           right. apply (IH q); [by left|done].
        -- intros Hc. right. apply (IH p); [by right|done].
Qed.

Lemma join_elem_chars (sep : string) (ps : list string) (c : ascii) :
  c ∈ String.list_ascii_of_string (Py.join sep ps) ->
  c ∈ String.list_ascii_of_string sep
  \/ exists p, p ∈ ps /\ c ∈ String.list_ascii_of_string p.
Proof.
  induction ps as [|p ps IH]; cbn [Py.join].
  - by intros ?%elem_of_nil.
  - destruct ps as [|q ps].
    + intros Hc. right. exists p. split; [by left|done].
    + rewrite !chars_app, !elem_of_app. intros [Hc|[Hc|Hc]].
      * right. exists p. split; [by left|done].
      * by left.
      * destruct (IH Hc) as [?|(p' & Hp' & Hc')]; [by left|].
        right. exists p'. split; [by right|done].
Qed.

Lemma invert_commas_elem_chars (s : string) (c : ascii) :
  c ∈ String.list_ascii_of_string (invert_commas s) ->
  c = " "%char \/ c ∈ String.list_ascii_of_string s.
Proof.
  unfold invert_commas. destruct (Py.contains "," s); [|by right].
  destruct (2 <=? length (Py.split "," s)); [|by right].
  intros [Hc|(p & Hp & Hc)]%join_elem_chars.
  - left. cbn in Hc. by apply list_elem_of_singleton in Hc.
  - right. apply list_elem_of_fmap in Hp as (q & -> & Hq).
    apply strip_chars in Hc. apply (split_elem_chars "," s q); [|done].
    apply elem_of_app in Hq as [Hq|Hq].
    + destruct (Py.split "," s); [done|]. by right.
    + by apply subseteq_take in Hq.
Qed.

Lemma canonical_names_isascii :
  Forall (fun name => Py.isascii name = true) canonical_names.
Proof. repeat constructor. Qed.

(** The canonical name of an ASCII name is an ASCII name. *)
Lemma standardize_name_isascii (name : string) :
  Py.isascii name = true -> Py.isascii (standardize_name name) = true.
Proof.
  intros Hname. unfold standardize_name.
  pose proof canonical_names_isascii as Hcanon. rewrite Forall_forall in Hcanon.
  destruct (specific_case (Py.title name)) as [value|] eqn:Hcase.
  { by eapply Hcanon, specific_case_canonical. }
  apply (title_from_isascii false) in Hname. fold (Py.title name) in Hname.
  unfold general_rules.
  destruct (fix_variations_cases (remove_nicknames (invert_commas (Py.title name))))
    as [Hsame|Hin].
  - rewrite Hsame. apply isascii_chars. intros c Hc.
    apply strip_chars, re_sub_spaces_from_chars in Hc as [->|Hc];
      [vm_compute; lia|].
    apply remove_nicknames_chars, invert_commas_elem_chars in Hc as [->|Hc];
      [vm_compute; lia|].
    by apply (proj1 (isascii_chars _) Hname).
  - assert (fix_variations (remove_nicknames (invert_commas (Py.title name)))
            ∈ canonical_names) as Hin'.
    { unfold canonical_names. apply elem_of_app. by right. }
    pose proof canonical_names_tidy as Htidy. rewrite Forall_forall in Htidy.
    destruct (Htidy _ Hin') as [-> _]. by apply Hcanon.
Qed.

(** C5, as amended: on ASCII names, where the model has the letter case
    of Python, [standardize_name] is a function of its argument, its result
    is an ASCII name again, and applying it twice is the same as applying
    it once exactly when the first application yields a canonical name of
    one of the two tables, or a name that is no key of [specific_cases] (up
    to case) and that the table of name variations leaves as it is. *)
Theorem standardize_name_idempotent_iff (name : string) :
  Py.isascii name = true ->
  let canonical := standardize_name name in
  Py.isascii canonical = true
  /\ (standardize_name canonical = canonical
      <-> canonical ∈ canonical_names
          \/ (specific_case canonical = None
              /\ fix_variations canonical = canonical))
  /\ forall other, other = name -> standardize_name other = canonical.
Proof.
  intros Hascii canonical.
  split; [by apply standardize_name_isascii|].
  split; [|by intros other ->]. split.
  - intros Hfixed. destruct (standardize_name_shape name) as [?|Hclean]; [by left|].
    fold canonical in Hclean. unfold standardize_name in Hfixed.
    assert (Py.title canonical = canonical) as Htitle by apply Hclean.
    rewrite Htitle in Hfixed.
    destruct (specific_case canonical) as [value|] eqn:Hcase.
    + left. rewrite <- Hfixed. by eapply specific_case_canonical.
    + right. split; [done|].
      rewrite clean_name_general_rules in Hfixed by done.
      destruct (fix_variations_cases canonical) as [?|Hin]; [done|].
      assert (fix_variations canonical ∈ canonical_names) as Hcanon.
      { unfold canonical_names. apply elem_of_app. by right. }
      pose proof canonical_names_tidy as Htidy.
      rewrite Forall_forall in Htidy.
      destruct (Htidy _ Hcanon) as [Htidy' _]. by rewrite Htidy' in Hfixed.
  - intros [Hcanon|[Hcase Hfix]].
    + pose proof canonical_names_tidy as Htidy.
      rewrite Forall_forall in Htidy. by destruct (Htidy _ Hcanon).
    + destruct (standardize_name_shape name) as [Hcanon|Hclean].
      * pose proof canonical_names_tidy as Htidy.
        rewrite Forall_forall in Htidy. by destruct (Htidy _ Hcanon).
      * by apply clean_name_fixed.
Qed.

Lemma standardize_name_idempotent_iff_witness :
  Py.isascii "Dela Cruz, Juan" = true
  /\ (specific_case (standardize_name "Dela Cruz, Juan") = None
      /\ fix_variations (standardize_name "Dela Cruz, Juan")
         = standardize_name "Dela Cruz, Juan")
  /\ standardize_name (standardize_name "Dela Cruz, Juan")
     = standardize_name "Dela Cruz, Juan".
Proof.
  assert (specific_case (standardize_name "Dela Cruz, Juan") = None
          /\ fix_variations (standardize_name "Dela Cruz, Juan")
             = standardize_name "Dela Cruz, Juan") as Hclean
    by (split; vm_compute; reflexivity).
  split; [reflexivity|]. split; [exact Hclean|].
  apply (proj1 (proj2 (standardize_name_idempotent_iff "Dela Cruz, Juan"
                         eq_refl))).
  right. exact Hclean.
Defined.

(** C5 fails as stated: the first application inverts the comma and yields
    a key of [specific_cases], which the second application replaces; or it
    deletes a nickname and closes up the blanks, which brings a key of the
    table of name variations to light. *)
Lemma standardize_name_not_idempotent :
  (standardize_name "Revilla, Bong" = "Bong Revilla"
   /\ standardize_name "Bong Revilla" = "Ramon Bong Revilla Jr.")
  /\ (standardize_name "Kiko Wil Pangilinan" = "Kiko Pangilinan"
      /\ standardize_name "Kiko Pangilinan" = "Francis Kiko Pangilinan")
  /\ standardize_name (standardize_name "Revilla, Bong")
     <> standardize_name "Revilla, Bong".
Proof. repeat split; vm_compute; discriminate || reflexivity. Qed.

(** ** The name mapping *)

Section DropDuplicates.

Context {A : Type} `{EqDecision A}.

Lemma elem_of_drop_duplicates_from (seen l : list A) (row : A) :
  row ∈ drop_duplicates_from seen l <-> row ∈ l /\ row ∉ seen.
Proof.
  revert seen. induction l as [|x l IH]; intros seen; simpl.
  - rewrite elem_of_nil. tauto.
  - destruct (decide (x ∈ seen)) as [Hseen|Hnew].
    + rewrite IH, elem_of_cons. split; [tauto|].
      intros [[->|?] ?]; [done|tauto].
    + rewrite !elem_of_cons, IH, elem_of_cons.
      destruct (decide (row = x)) as [->|Hne]; [tauto|]. tauto.
Qed.

Lemma NoDup_drop_duplicates_from (seen l : list A) :
  NoDup (drop_duplicates_from seen l).
Proof.
  revert seen. induction l as [|x l IH]; intros seen; simpl.
  - constructor.
  - destruct (decide (x ∈ seen)); [apply IH|].
    constructor; [|apply IH].
    rewrite elem_of_drop_duplicates_from, elem_of_cons. tauto.
Qed.

Lemma elem_of_drop_duplicates (l : list A) (row : A) :
  row ∈ drop_duplicates l <-> row ∈ l.
Proof.
  unfold drop_duplicates. rewrite elem_of_drop_duplicates_from, elem_of_nil.
  tauto.
Qed.

(** In a list without duplicates, a property that only [row] can have
    selects [row] alone. *)
Lemma filter_unique (P : A -> Prop) `{forall x, Decision (P x)}
  (l : list A) (row : A) :
  NoDup l -> row ∈ l -> P row -> (forall x, x ∈ l -> P x -> x = row) ->
  filter P l = [row].
Proof.
  intros Hnodup Hin Hrow Honly.
  assert (forall k, NoDup k -> (forall x, x ∈ k -> P x -> x = row) ->
                    row ∉ k -> filter P k = []) as Hnone.
  { intros k _ Hk Hnot. induction k as [|y k IHk]; [done|].
    rewrite filter_cons, decide_False.
    - apply IHk; [|by intros ?; apply Hnot; right].
      intros x Hx. apply Hk. by right.
    - intros HPy. apply Hnot. rewrite <- (Hk y); [by left|by left|done]. }
  induction Hnodup as [|x l Hx Hl IH]; [by apply elem_of_nil in Hin|].
  rewrite filter_cons. apply elem_of_cons in Hin as [->|Hin].
  - rewrite decide_True by done. f_equal.
    apply Hnone; [done| |done]. intros y Hy. apply Honly. by right.
  - assert (x <> row) as Hne by (intros ->; done).
    rewrite decide_False.
    + apply IH; [done|]. intros y Hy. apply Honly. by right.
    + intros HPx. apply Hne, Honly; [by left|done].
Qed.

End DropDuplicates.

Lemma zip_standardized (names : list string) :
  zip names (standardize_name <$> names)
  = (fun name => (name, standardize_name name)) <$> names.
Proof.
  induction names as [|name names IH]; [done|].
  rewrite !fmap_cons. cbn [zip_with]. by rewrite IH.
Qed.

(** C9: the name mapping has no row twice, and for every original name of
    either dataset it has exactly one row, which pairs the name with the
    canonical name [standardize_name] gives it. *)
Theorem name_mapping_lookup (candidate_names candidates : list string) :
  NoDup (name_mapping candidate_names candidates)
  /\ forall original,
       original ∈ (candidate_names ++ candidates)%list ->
       mapping_rows original (name_mapping candidate_names candidates)
       = [(original, standardize_name original)].
Proof.
  unfold name_mapping, mapping_rows.
  rewrite <- fmap_app, zip_standardized.
  split; [apply NoDup_drop_duplicates_from|].
  intros original Hin.
  apply (filter_unique (fun row : string * string => row.1 = original)).
  - apply NoDup_drop_duplicates_from.
  - apply elem_of_drop_duplicates, list_elem_of_fmap. by exists original.
  - done.
  - intros row Hrow Horiginal.
    apply elem_of_drop_duplicates, list_elem_of_fmap in Hrow as (name & -> & _).
    simpl in Horiginal. by subst.
Qed.

Example name_mapping_sample :
  name_mapping ["GO, BONG GO"; "Tulfo, Erwin"] ["Bong Go"; "Tulfo, Erwin"]
  = [ ("GO, BONG GO", "Bong Go"); ("Tulfo, Erwin", "Erwin Tulfo");
      ("Bong Go", "Bong Go") ].
Proof. vm_compute. reflexivity. Qed.

(** ** What [standardize_name] returns *)

Lemma to_upper_to_lower (c : ascii) :
  Py.to_upper (Py.to_lower c) = Py.to_upper c.
Proof. ascii_cases c; vm_compute; reflexivity. Qed.

Lemma title_from_lower (b : bool) (s : string) :
  Py.title_from b (Py.lower s) = Py.title_from b s.
Proof.
  revert b. induction s as [|c t IH]; intros b; [done|].
  cbn [Py.lower]. rewrite !title_from_cons, IH, cased_to_lower. f_equal.
  unfold title_char. rewrite cased_to_lower.
  destruct (Py.iscased c) eqn:Hc.
  - destruct b; [apply to_lower_fixed|apply to_upper_to_lower].
  - revert Hc. unfold Py.to_lower, Py.iscased.
    by destruct (Py.isupper c).
Qed.

(** The letter case of an ASCII raw name does not matter: two ASCII
    names that are equal up to case get the same canonical name, an ASCII
    name. *)
Theorem standardize_name_case_insensitive (name other : string) :
  Py.isascii name = true -> Py.isascii other = true ->
  Py.lower name = Py.lower other ->
  standardize_name name = standardize_name other
  /\ Py.isascii (standardize_name name) = true.
Proof.
  intros Hname _ Hlower. split; [|by apply standardize_name_isascii].
  unfold standardize_name, Py.title.
  by rewrite <- (title_from_lower false name), Hlower, title_from_lower.
Qed.

Lemma standardize_name_case_insensitive_witness :
  (Py.isascii "TULFO, ERWIN" = true /\ Py.isascii "Tulfo, erwin" = true
   /\ Py.lower "TULFO, ERWIN" = Py.lower "Tulfo, erwin")
  /\ standardize_name "TULFO, ERWIN" = standardize_name "Tulfo, erwin"
  /\ Py.isascii (standardize_name "TULFO, ERWIN") = true.
Proof.
  split; [by repeat split|].
  exact (standardize_name_case_insensitive "TULFO, ERWIN" "Tulfo, erwin"
           eq_refl eq_refl eq_refl).
Defined.

Lemma canonical_names_tidy_shape :
  Forall (fun name =>
            Py.contains "," name = false
            /\ forallb (fun word => negb (has_word word false name)) nicknames
               = true
            /\ single_spaced false name = true
            /\ Py.strip name = name
            /\ (Py.title name = name \/ name = lower_case_particle_name))
         canonical_names.
Proof.
  apply Forall_forall. intros name Hin.
  unfold canonical_names in Hin. simpl in Hin.
  repeat (apply elem_of_cons in Hin as [->|Hin];
          [repeat split; try (vm_compute; reflexivity);
           first [left; vm_compute; reflexivity | right; reflexivity] |]).
  by apply elem_of_nil in Hin.
Qed.

(** Whatever the raw name, the canonical name has no comma, none of the
    nicknames as a word of its own, no white space at either end and only
    single blanks between its words. *)
Theorem standardize_name_normal_form (name : string) :
  let canonical := standardize_name name in
  Py.contains "," canonical = false
  /\ Forall (fun word => Py.re_sub_word word canonical = canonical) nicknames
  /\ Py.strip canonical = canonical
  /\ Py.re_sub_spaces canonical = canonical.
Proof.
  intros canonical.
  assert (Py.contains "," canonical = false
          /\ Forall (fun word => has_word word false canonical = false) nicknames
          /\ single_spaced false canonical = true
          /\ Py.strip canonical = canonical) as (Hcomma & Hwords & Hspaced & Hstrip).
  { destruct (standardize_name_shape name) as [Hcanon|Hclean];
      fold canonical in Hcanon || fold canonical in Hclean.
    - pose proof canonical_names_tidy_shape as Hshape.
      rewrite Forall_forall in Hshape.
      destruct (Hshape _ Hcanon) as (? & Hwords & ? & ? & _).
      repeat split; try done.
      rewrite forallb_forall in Hwords. apply Forall_forall.
      intros word Hword. apply list_elem_of_In, Hwords in Hword.
      by apply negb_true_iff.
    - destruct Hclean as (_ & Hcomma & Hwords & Hspaced & Hstrip).
      repeat split; try done. by apply not_contains_char. }
  repeat split; try done.
  - eapply Forall_impl; [exact Hwords|]. intros word Hword.
    by apply has_word_re_sub_word_from.
  - by apply re_sub_spaces_from_single_spaced.
Qed.

(** The canonical name of an ASCII name is an ASCII name in title case,
    unless it is the one name the table of name variations spells with a
    lower-case particle. *)
Theorem standardize_name_title_case (name : string) :
  Py.isascii name = true ->
  let canonical := standardize_name name in
  Py.isascii canonical = true
  /\ (Py.title canonical = canonical \/ canonical = lower_case_particle_name).
Proof.
  intros Hascii canonical. split; [by apply standardize_name_isascii|].
  destruct (standardize_name_shape name) as [Hcanon|Hclean].
  - pose proof canonical_names_tidy_shape as Hshape.
    rewrite Forall_forall in Hshape.
    by destruct (Hshape _ Hcanon) as (_ & _ & _ & _ & ?).
  - left. apply Hclean.
Qed.

Lemma standardize_name_title_case_witness :
  Py.isascii "DELA ROSA, BATO" = true
  /\ Py.isascii (standardize_name "DELA ROSA, BATO") = true
  /\ (Py.title (standardize_name "DELA ROSA, BATO")
      = standardize_name "DELA ROSA, BATO"
      \/ standardize_name "DELA ROSA, BATO" = lower_case_particle_name).
Proof.
  split; [reflexivity|].
  exact (standardize_name_title_case "DELA ROSA, BATO" eq_refl).
Defined.

(** ** Reading a pipe table *)

Lemma split_no_sep (sep : ascii) (p : string) :
  sep ∉ String.list_ascii_of_string p -> Py.split sep p = [p].
Proof.
  induction p as [|c p IH]; simpl; [done|].
  rewrite not_elem_of_cons. intros [Hne Hp].
  destruct (Ascii.eqb c sep) eqn:Hc.
  - by apply Ascii.eqb_eq in Hc as ->.
  - by rewrite IH.
Qed.

Lemma split_app_sep (sep : ascii) (p rest : string) :
  sep ∉ String.list_ascii_of_string p ->
  Py.split sep (p +:+ String sep rest) = p :: Py.split sep rest.
Proof.
  induction p as [|c p IH]; simpl.
  - intros _. by rewrite Ascii.eqb_refl.
  - rewrite not_elem_of_cons. intros [Hne Hp].
    destruct (Ascii.eqb c sep) eqn:Hc.
    + by apply Ascii.eqb_eq in Hc as ->.
    + by rewrite IH.
Qed.

Lemma join_cons (sep p q : string) (ps : list string) :
  Py.join sep (p :: q :: ps) = p +:+ sep +:+ Py.join sep (q :: ps).
Proof. reflexivity. Qed.

Lemma split_join (sep : ascii) (p : string) (ps : list string) :
  Forall (fun q => sep ∉ String.list_ascii_of_string q) (p :: ps) ->
  Py.split sep (Py.join (String sep "") (p :: ps)) = p :: ps.
Proof.
  revert p. induction ps as [|q ps IH]; intros p Hall.
  - apply Forall_cons in Hall as [Hp _]. by apply split_no_sep.
  - apply Forall_cons in Hall as [Hp Hps]. rewrite join_cons.
    change (p +:+ String sep "" +:+ Py.join (String sep "") (q :: ps))
      with (p +:+ String sep (Py.join (String sep "") (q :: ps))).
    rewrite split_app_sep by done. by rewrite IH.
Qed.

Lemma lstrip_app (a : string) (c : ascii) (r : string) :
  Py.isspace c = false ->
  Py.lstrip (a +:+ String c r) = Py.lstrip a +:+ String c r.
Proof.
  intros Hc. induction a as [|x a IH]; simpl; [by rewrite Hc|].
  by destruct (Py.isspace x).
Qed.

Lemma rstrip_app (a : string) (c : ascii) (r : string) :
  Py.isspace c = false ->
  Py.rstrip (a +:+ String c r) = a +:+ String c (Py.rstrip r).
Proof.
  intros Hc. induction a as [|x a IH].
  - simpl. destruct (Py.rstrip r); [by rewrite Hc|done].
  - simpl. rewrite IH. by destruct a.
Qed.

Lemma isspace_pipe : Py.isspace "|" = false.
Proof. reflexivity. Qed.

Lemma lstrip_join (p q : string) (ps : list string) :
  Py.lstrip (Py.join "|" (p :: q :: ps)) = Py.join "|" (Py.lstrip p :: q :: ps).
Proof. rewrite !join_cons. by apply lstrip_app. Qed.

Lemma rstrip_join (p : string) (ps : list string) (q : string) :
  Py.rstrip (Py.join "|" (p :: ps ++ [q]))
  = Py.join "|" (p :: ps ++ [Py.rstrip q]).
Proof.
  revert p. induction ps as [|p' ps IH]; intros p.
  - simpl. by apply rstrip_app.
  - change (Py.join "|" (p :: (p' :: ps) ++ [q]))
      with (p +:+ String "|" (Py.join "|" (p' :: ps ++ [q]))).
    rewrite rstrip_app by done. by rewrite IH.
Qed.

Lemma slice_inner_middle {A : Type} (a : A) (mid : list A) (b : A) :
  slice_inner (a :: mid ++ [b]) = mid.
Proof.
  unfold slice_inner. simpl. rewrite length_app. simpl.
  replace (length mid + 1 - 0) with (S (length mid)) by lia.
  simpl. rewrite take_app_length. done.
Qed.

Lemma table_cells_join (before : string) (cells : list string)
  (after : string) :
  Forall (fun piece => "|"%char ∉ String.list_ascii_of_string piece)
         (before :: cells ++ [after]) ->
  table_cells (Py.join "|" (before :: cells ++ [after])) = Py.strip <$> cells.
Proof.
  intros Hall. unfold table_cells, Py.strip at 2.
  assert (exists before', Py.lstrip (Py.join "|" (before :: cells ++ [after]))
                          = Py.join "|" (before' :: cells ++ [after])
                          /\ "|"%char ∉ String.list_ascii_of_string before')
    as (before' & -> & Hbefore').
  { exists (Py.lstrip before). split.
    - destruct cells as [|cell cells];
        [exact (lstrip_join before after [])
        |exact (lstrip_join before cell (cells ++ [after]))].
    - apply Forall_cons in Hall as [Hbefore _]. intros Hin.
      by apply Hbefore, lstrip_chars. }
  rewrite rstrip_join, split_join, slice_inner_middle; [done|].
  apply Forall_cons in Hall as [_ Hall]. constructor; [done|].
  apply Forall_app in Hall as [Hcells Hafter]. apply Forall_app.
  split; [done|]. apply Forall_singleton. rewrite Forall_singleton in Hafter.
  intros Hin. by apply Hafter, rstrip_chars.
Qed.

(** A line is read as the texts between its pipes, each stripped; what
    stands before the first pipe and after the last one is dropped. *)
Theorem table_cells_between_pipes (before : string) (cells : list string)
  (after : string) :
  Forall (fun piece => "|"%char ∉ String.list_ascii_of_string piece)
         (before :: cells ++ [after]) ->
  table_cells (Py.join "|" (before :: cells ++ [after])) = Py.strip <$> cells.
Proof. apply table_cells_join. Qed.

Lemma table_cells_between_pipes_witness :
  Forall (fun piece => "|"%char ∉ String.list_ascii_of_string piece)
         ("" :: [" Go, Bong Go "; " 1,234 "] ++ [" "])
  /\ table_cells (Py.join "|" ("" :: [" Go, Bong Go "; " 1,234 "] ++ [" "]))
     = Py.strip <$> [" Go, Bong Go "; " 1,234 "].
Proof.
  assert (Forall (fun piece => "|"%char ∉ String.list_ascii_of_string piece)
            ("" :: [" Go, Bong Go "; " 1,234 "] ++ [" "])) as Hall.
  { repeat constructor; apply (bool_decide_unpack _); vm_compute; exact I. }
  split; [exact Hall|]. exact (table_cells_between_pipes _ _ _ Hall).
Defined.

Lemma slice_inner_subseteq {A : Type} (l : list A) : slice_inner l ⊆ l.
Proof.
  unfold slice_inner. etrans; [apply subseteq_drop|apply subseteq_take].
Qed.

(** No cell has a pipe or white space at either end, whatever the line. *)
Theorem table_cells_stripped (line : string) :
  Forall (fun cell => Py.strip cell = cell /\ Py.contains "|" cell = false)
         (table_cells line).
Proof.
  unfold table_cells. apply Forall_fmap, Forall_forall. intros piece Hpiece.
  apply slice_inner_subseteq in Hpiece. simpl. split; [apply strip_strip|].
  apply not_contains_char. intros Hin. apply strip_chars in Hin.
  pose proof (split_chars "|" (Py.strip line)) as Hsplit.
  rewrite Forall_forall in Hsplit. by apply (Hsplit piece).
Qed.

Lemma split_length_count (sep : ascii) (s : string) :
  length (Py.split sep s) = S (count_char sep s).
Proof.
  unfold count_char. induction s as [|c s IH]; [done|].
  cbn [Py.split String.list_ascii_of_string]. rewrite filter_cons.
  destruct (Ascii.eqb c sep) eqn:Hc.
  - apply Ascii.eqb_eq in Hc as ->. rewrite decide_True by done.
    simpl. by rewrite IH.
  - rewrite decide_False by (intros ->; by rewrite Ascii.eqb_refl in Hc).
    destruct (Py.split sep s); simpl in *; [done|]. by rewrite <- IH.
Qed.

(** A line with [k] pipes, white space at its ends apart, has [k - 1]
    cells. *)
Theorem table_cells_length (line : string) :
  length (table_cells line) = count_char "|" (Py.strip line) - 1.
Proof.
  unfold table_cells, slice_inner.
  rewrite length_fmap, length_drop, length_take, split_length_count. lia.
Qed.

Lemma contains_pipe_join (p q : string) (ps : list string) :
  Py.contains "|" (Py.join "|" (p :: q :: ps)) = true.
Proof.
  rewrite join_cons. apply contains_char.
  rewrite !chars_app, !elem_of_app. right. left. by left.
Qed.

Lemma table_cells_table_line (cells : list string) :
  Forall (fun cell => "|"%char ∉ String.list_ascii_of_string cell) cells ->
  table_cells (table_line cells) = Py.strip <$> cells.
Proof.
  intros Hcells. apply table_cells_join.
  constructor; [by intros ?%elem_of_nil|].
  apply Forall_app. split; [done|]. apply Forall_singleton.
  apply (bool_decide_unpack _). vm_compute. exact I.
Qed.

(** A table written line by line is read back cell by cell, without the
    padding of the cells; the second line is passed over whatever it is. *)
Theorem read_table_table_lines (header : list string) (separator : string)
  (rows : list (list string)) :
  Forall (fun cell => "|"%char ∉ String.list_ascii_of_string cell) header ->
  Forall (Forall (fun cell => "|"%char ∉ String.list_ascii_of_string cell))
         rows ->
  read_table (table_line header :: separator :: (table_line <$> rows))
  = Some (Py.strip <$> header, (fun row : list string => Py.strip <$> row) <$> rows).
Proof.
  intros Hheader Hrows. unfold read_table, data_rows.
  rewrite table_cells_table_line by done. do 2 f_equal. cbn [drop].
  rewrite drop_0. induction Hrows as [|row rows Hrow Hrows IH]; [done|].
  rewrite fmap_cons, filter_cons, decide_True.
  - rewrite !fmap_cons, IH. by rewrite table_cells_table_line.
  - unfold table_line. destruct row; apply contains_pipe_join.
Qed.

Lemma read_table_table_lines_witness :
  (Forall (fun cell => "|"%char ∉ String.list_ascii_of_string cell)
          [" Candidate Name "; " Number of Votes "]
   /\ Forall (Forall (fun cell => "|"%char ∉ String.list_ascii_of_string cell))
             [[" GO, BONG GO "; " 26,000,000 "]])
  /\ read_table (table_line [" Candidate Name "; " Number of Votes "]
                 :: "| --- | --- |"
                 :: (table_line <$> [[" GO, BONG GO "; " 26,000,000 "]]))
     = Some (Py.strip <$> [" Candidate Name "; " Number of Votes "],
             (fun row : list string => Py.strip <$> row)
               <$> [[" GO, BONG GO "; " 26,000,000 "]]).
Proof.
  assert (Forall (fun cell => "|"%char ∉ String.list_ascii_of_string cell)
            [" Candidate Name "; " Number of Votes "]) as Hheader
    by (repeat constructor; apply (bool_decide_unpack _); vm_compute; exact I).
  assert (Forall (Forall (fun cell => "|"%char ∉ String.list_ascii_of_string cell))
            [[" GO, BONG GO "; " 26,000,000 "]]) as Hrows
    by (repeat constructor; apply (bool_decide_unpack _); vm_compute; exact I).
  split; [by split|]. exact (read_table_table_lines _ _ _ Hheader Hrows).
Defined.

(** ** The votes *)

Lemma prefix_char (a c : ascii) (t : string) :
  String.prefix (String a "") (String c t) = Ascii.eqb a c.
Proof.
  simpl. destruct (ascii_dec a c) as [->|Hne].
  - by rewrite prefix_empty, Ascii.eqb_refl.
  - symmetry. by apply Ascii.eqb_neq.
Qed.

Lemma replace_comma_cons (c : ascii) (t : string) :
  Py.replace "," "" (String c t)
  = if Ascii.eqb c "," then Py.replace "," "" t
    else String c (Py.replace "," "" t).
Proof.
  unfold Py.replace. rewrite replace_from_cons, prefix_char, Ascii.eqb_sym.
  by destruct (Ascii.eqb c ",").
Qed.

Lemma replace_comma_digits (s : string) (acc : Z) :
  forallb (fun c => Py.isdigit c || Ascii.eqb c ",")
          (String.list_ascii_of_string s) = true ->
  forallb Py.isdigit (String.list_ascii_of_string (Py.replace "," "" s)) = true
  /\ decimal_digits acc (Py.replace "," "" s) = decimal_digits acc s
  /\ (existsb Py.isdigit (String.list_ascii_of_string s) = true ->
      Py.replace "," "" s <> "").
Proof.
  revert acc. induction s as [|c t IH]; intros acc; [done|].
  cbn [String.list_ascii_of_string forallb existsb].
  intros [Hc Ht]%andb_true_iff. rewrite replace_comma_cons.
  destruct (Ascii.eqb c ",") eqn:Hcomma.
  - apply Ascii.eqb_eq in Hcomma as ->.
    destruct (IH acc Ht) as (Hall & Hvalue & Hsome).
    repeat split; [done|by rewrite Hvalue|]. done.
  - rewrite orb_false_r in Hc. cbn [decimal_digits].
    rewrite Hc. destruct (IH (10 * acc + Z.of_nat (Py.code c - 48))%Z Ht)
      as (Hall & Hvalue & _).
    repeat split; [|done|done]. simpl. by rewrite Hc.
Qed.

(** A vote count written with digits and commas is read as the number its
    digits write, wherever the commas stand; a column of such cells is
    read whole. *)
Theorem votes_column_grouped (int_of_string : string -> option Z)
  (cells : list string) :
  reads_decimals int_of_string ->
  Forall (fun cell => is_grouped_decimal cell = true
                      /\ (decimal_digits 0 cell < 2 ^ 63)%Z) cells ->
  votes_column int_of_string cells = Some (decimal_digits 0 <$> cells).
Proof.
  intros Hint Hcells. unfold votes_column. apply mapM_Some.
  apply Forall2_fmap_r, Forall_Forall2_diag.
  eapply Forall_impl; [exact Hcells|]. intros cell [Hcell Hbound].
  unfold compose.
  unfold is_grouped_decimal in Hcell.
  apply andb_true_iff in Hcell as [Hall Hdigit].
  destruct (replace_comma_digits cell 0 Hall) as (Hdigits & Hvalue & Hsome).
  unfold votes_of_cell. rewrite <- Hvalue. apply Hint.
  - unfold is_decimal. rewrite Hdigits. simpl. apply negb_true_iff.
    apply String.eqb_neq. by apply Hsome.
  - by rewrite Hvalue.
Qed.

Lemma int_of_decimal_reads_decimals : reads_decimals int_of_decimal.
Proof.
  intros s Hs Hbound. unfold int_of_decimal. rewrite Hs.
  apply Z.ltb_lt in Hbound. by rewrite Hbound.
Qed.

Lemma votes_column_grouped_witness :
  (reads_decimals int_of_decimal
   /\ Forall (fun cell => is_grouped_decimal cell = true
                          /\ (decimal_digits 0 cell < 2 ^ 63)%Z)
             ["26,000,000"; "987"])
  /\ votes_column int_of_decimal ["26,000,000"; "987"]
     = Some (decimal_digits 0 <$> ["26,000,000"; "987"]).
Proof.
  assert (Forall (fun cell => is_grouped_decimal cell = true
                              /\ (decimal_digits 0 cell < 2 ^ 63)%Z)
            ["26,000,000"; "987"]) as Hcells
    by (repeat constructor).
  split; [split; [exact int_of_decimal_reads_decimals|exact Hcells]|].
  exact (votes_column_grouped int_of_decimal _ int_of_decimal_reads_decimals
           Hcells).
Defined.

Example votes_column_sample :
  votes_column int_of_decimal ["26,000,000"; "987"] = Some [26000000; 987]%Z
  /\ votes_column int_of_decimal ["26,000,000"; "n/a"] = None.
Proof. split; vm_compute; reflexivity. Qed.

(** ** The number of entries of the name mapping *)

Lemma drop_duplicates_from_fmap {A B : Type} `{EqDecision A} `{EqDecision B}
  (f : A -> B) `{!Inj (=) (=) f} (seen l : list A) :
  drop_duplicates_from (f <$> seen) (f <$> l)
  = f <$> drop_duplicates_from seen l.
Proof.
  revert seen. induction l as [|x l IH]; intros seen; [done|].
  cbn [drop_duplicates_from fmap list_fmap].
  destruct (decide (x ∈ seen)) as [Hseen|Hnew].
  - rewrite decide_True by (by apply list_elem_of_fmap_2). apply IH.
  - rewrite decide_False.
    + rewrite fmap_cons. f_equal. apply (IH (x :: seen)).
    + intros (y & Hy & Hin)%list_elem_of_fmap. apply (inj f) in Hy as <-. done.
Qed.

(** The name mapping lists the original names of both datasets in the
    order of their first appearance, each once; the number of its entries
    is the number of different original names. *)
Theorem name_mapping_names (candidate_names candidates : list string) :
  (name_mapping candidate_names candidates).*1
  = drop_duplicates (candidate_names ++ candidates)
  /\ length (name_mapping candidate_names candidates)
     = size (list_to_set (candidate_names ++ candidates) : gset string).
Proof.
  assert ((name_mapping candidate_names candidates).*1
          = drop_duplicates (candidate_names ++ candidates)) as Hnames.
  { unfold name_mapping, drop_duplicates.
    rewrite <- fmap_app, zip_standardized.
    assert (Inj (=) (=) (fun name => (name, standardize_name name))) as Hinj
      by (by intros ?? [= ->]).
    rewrite (drop_duplicates_from_fmap
               (fun name => (name, standardize_name name)) []
               (candidate_names ++ candidates) : drop_duplicates_from [] _ = _).
    rewrite <- list_fmap_compose. apply list_fmap_id. }
  split; [done|].
  rewrite <- (length_fmap fst), Hnames.
  rewrite <- (size_list_to_set (C := gset string))
    by apply NoDup_drop_duplicates_from.
  f_equal. apply set_eq. intros name.
  by rewrite !elem_of_list_to_set, elem_of_drop_duplicates.
Qed.

(** ** The counts of the summary page *)

Lemma dict_set_keys (key : string) (value : nat) (d : Counts) :
  (dict_set key value d).*1
  = if decide (key ∈ d.*1) then d.*1 else (d.*1 ++ [key])%list.
Proof.
  induction d as [|item rest IH].
  - cbn [dict_set fmap list_fmap]. by rewrite decide_False by apply not_elem_of_nil.
  - cbn [dict_set]. rewrite !fmap_cons.
    destruct (decide (item.1 = key)) as [Hkey|Hkey].
    + rewrite decide_True by (rewrite Hkey; by left).
      rewrite fmap_cons. by rewrite Hkey.
    + rewrite fmap_cons, IH. destruct (decide (key ∈ rest.*1)) as [Hin|Hin].
      * by rewrite decide_True by (by right).
      * rewrite decide_False; [done|].
        intros [?|?]%elem_of_cons; [by apply Hkey|done].
Qed.

Lemma dict_get_set (key key' : string) (value : nat) (d : Counts) :
  dict_get key (dict_set key' value d)
  = if decide (key = key') then value else dict_get key d.
Proof.
  induction d as [|item rest IH]; simpl.
  - destruct (decide (key' = key)), (decide (key = key')); congruence.
  - destruct (decide (item.1 = key')) as [Hitem|Hitem]; simpl.
    + destruct (decide (key' = key)), (decide (key = key')),
        (decide (item.1 = key)); congruence.
    + rewrite IH.
      destruct (decide (item.1 = key)), (decide (key = key')); congruence.
Qed.

Lemma dict_get_absent (key : string) (d : Counts) :
  key ∉ d.*1 -> dict_get key d = 0.
Proof.
  induction d as [|item rest IH]; simpl; [done|].
  intros Hkey. apply not_elem_of_cons in Hkey as [Hitem Hrest].
  rewrite decide_False by done. by apply IH.
Qed.

Lemma fmap_ext_elem_of {A B : Type} (f g : A -> B) (l : list A) :
  (forall x, x ∈ l -> f x = g x) -> f <$> l = g <$> l.
Proof. intros Hfg. by apply Forall_fmap_ext, Forall_forall. Qed.

(** A [dict] is its keys with the value of each. *)
Lemma dict_items (d : Counts) :
  NoDup d.*1 -> d = (fun key => (key, dict_get key d)) <$> d.*1.
Proof.
  induction d as [|item rest IH]; simpl; [done|].
  intros [Hitem Hrest]%NoDup_cons.
  rewrite decide_True by done. f_equal; [by destruct item|].
  rewrite (IH Hrest) at 1. apply fmap_ext_elem_of.
  intros key Hkey. rewrite decide_False; [done|]. by intros <-.
Qed.

Lemma drop_duplicates_from_seen {A : Type} `{EqDecision A}
  (seen seen' l : list A) :
  (forall x, x ∈ seen <-> x ∈ seen') ->
  drop_duplicates_from seen l = drop_duplicates_from seen' l.
Proof.
  revert seen seen'. induction l as [|x l IH]; intros seen seen' Hseen; [done|].
  simpl. destruct (decide (x ∈ seen)) as [Hx|Hx].
  - rewrite decide_True by (by apply Hseen). by apply IH.
  - rewrite decide_False by (by rewrite <- Hseen). f_equal. apply IH.
    intros y. rewrite !elem_of_cons, Hseen. tauto.
Qed.

Section CountLoop.

(** The body of a loop that sets the value of one key per round. *)
Variable step : Counts -> string -> Counts.
Hypothesis step_keys : forall d key,
  (step d key).*1 = if decide (key ∈ d.*1) then d.*1 else (d.*1 ++ [key])%list.

Lemma foldl_step_keys (d : Counts) (l : list string) :
  (foldl step d l).*1 = (d.*1 ++ drop_duplicates_from d.*1 l)%list.
Proof.
  revert d. induction l as [|x l IH]; intros d; simpl.
  - by rewrite app_nil_r.
  - rewrite IH, step_keys.
    destruct (decide (x ∈ d.*1)) as [Hx|Hx]; [done|].
    rewrite <- app_assoc. simpl. do 2 f_equal.
    apply drop_duplicates_from_seen. intros y.
    rewrite elem_of_app, !elem_of_cons, elem_of_nil. tauto.
Qed.

Lemma foldl_step_NoDup (d : Counts) (l : list string) :
  NoDup d.*1 -> NoDup (foldl step d l).*1.
Proof.
  intros Hd. rewrite foldl_step_keys. apply NoDup_app.
  split; [done|]. split; [|apply NoDup_drop_duplicates_from].
  intros x Hx [_ Hnot]%elem_of_drop_duplicates_from. done.
Qed.

End CountLoop.

Lemma missed_counts_get (comparison_df : list Scorecard)
  (d : Counts) (l : list string) (senator : string) :
  dict_get senator
    (foldl (fun d key => dict_set key (missed_count comparison_df key) d) d l)
  = if decide (senator ∈ l) then missed_count comparison_df senator
    else dict_get senator d.
Proof.
  revert d. induction l as [|x l IH]; intros d; cbn [foldl].
  - by rewrite decide_False by apply not_elem_of_nil.
  - rewrite IH, dict_get_set.
    destruct (decide (senator ∈ l)) as [Hin|Hin].
    + by rewrite decide_True by (by right).
    + destruct (decide (senator = x)) as [->|Hx].
      * by rewrite decide_True by (by left).
      * rewrite decide_False; [done|].
        intros [?|?]%elem_of_cons; done.
Qed.

Lemma missed_counts_map (actual_top12 : list string)
  (comparison_df : list Scorecard) :
  missed_counts actual_top12 comparison_df
  = (fun senator => (senator, missed_count comparison_df senator))
      <$> drop_duplicates actual_top12.
Proof.
  unfold missed_counts.
  match goal with |- ?counts = _ => set (d := counts) end.
  assert (d.*1 = drop_duplicates actual_top12) as Hkeys.
  { apply (foldl_step_keys _ (fun d key => dict_set_keys key _ d) []). }
  rewrite (dict_items d), Hkeys.
  - apply fmap_ext_elem_of. intros senator Hin.
    apply (proj1 (elem_of_drop_duplicates _ _)) in Hin. f_equal. unfold d.
    rewrite missed_counts_get. by rewrite decide_True.
  - rewrite Hkeys. apply NoDup_drop_duplicates_from.
Qed.

(** The dictionary of the misses has the senators of the official top 12
    as its keys, each once and in the order of their rank, and the number
    of surveys without the senator as the value of each. *)
Theorem missed_counts_items (actual_top12 : list string)
  (comparison_df : list Scorecard) :
  missed_counts actual_top12 comparison_df
  = (fun senator => (senator, missed_count comparison_df senator))
      <$> drop_duplicates actual_top12.
Proof. apply missed_counts_map. Qed.

Lemma length_filter_complement {A : Type} (P : A -> Prop)
  `{forall x, Decision (P x)} (l : list A) :
  length (filter P l) + length (filter (fun x => ~ P x) l) = length l.
Proof. by rewrite <- length_app, filter_app_complement. Qed.

Lemma length_filter_all {A : Type} (P : A -> Prop)
  `{forall x, Decision (P x)} (l : list A) :
  length (filter P l) = length l <-> Forall P l.
Proof.
  induction l as [|x l IH]; [by split|].
  rewrite filter_cons, Forall_cons. destruct (decide (P x)) as [HP|HP]; simpl.
  - rewrite <- IH. split; [intros [= ?]; by split | intros [_ ->]; done].
  - pose proof (length_filter P l). split; [lia | tauto].
Qed.

Lemma missed_count_included (comparison_df : list Scorecard) (name : string) :
  missed_count comparison_df name + included_count comparison_df name
  = length comparison_df.
Proof.
  unfold missed_count, included_count. rewrite Nat.add_comm.
  apply (length_filter_complement (fun card => name ∈ Predicted_Top_12 card)).
Qed.

(** Every senator of the official top 12 is missed by as many surveys as
    do not include the senator: the misses and the inclusions add up to
    the number of surveys, all surveys miss the senators that no predicted
    list holds, and no survey misses those that all predicted lists
    hold. *)
Theorem missed_counts_surveys (actual_top12 : list string)
  (comparison_df : list Scorecard) (senator : string) (count : nat) :
  (senator, count) ∈ missed_counts actual_top12 comparison_df ->
  senator ∈ actual_top12
  /\ count + included_count comparison_df senator = length comparison_df
  /\ (count = length comparison_df
      <-> Forall (fun card => senator ∉ Predicted_Top_12 card) comparison_df)
  /\ (count = 0
      <-> Forall (fun card => senator ∈ Predicted_Top_12 card) comparison_df).
Proof.
  rewrite missed_counts_map.
  intros (name & [= -> ->] & Hin)%list_elem_of_fmap.
  apply (proj1 (elem_of_drop_duplicates _ _)) in Hin.
  pose proof (missed_count_included comparison_df name) as Hsum.
  split; [done|]. split; [done|]. split.
  - apply length_filter_all.
  - rewrite <- (length_filter_all (fun card => name ∈ Predicted_Top_12 card)).
    fold (included_count comparison_df name). lia.
Qed.

Lemma missed_counts_surveys_witness :
  ("Bong Go", 1) ∈ missed_counts ["Bong Go"; "Bam Aquino"] sample_cards
  /\ 1 + included_count sample_cards "Bong Go" = length sample_cards.
Proof.
  assert (("Bong Go", 1) ∈ missed_counts ["Bong Go"; "Bam Aquino"] sample_cards)
    as Hin by (vm_compute; left).
  split; [exact Hin|].
  exact (proj1 (proj2 (missed_counts_surveys _ _ _ _ Hin))).
Defined.

(** ** The wrongly included candidates *)

Lemma foldl_filter_step {A B : Type} (P : A -> Prop)
  `{forall x, Decision (P x)} (g : B -> A -> B) (b : B) (l : list A) :
  foldl (fun b x => if decide (P x) then g b x else b) b l
  = foldl g b (filter P l).
Proof.
  revert b. induction l as [|x l IH]; intros b; [done|].
  rewrite filter_cons. cbn [foldl]. rewrite IH.
  by destruct (decide (P x)).
Qed.

Lemma foldl_concat {A B C : Type} (f : C -> list A) (g : B -> A -> B)
  (b : B) (l : list C) :
  foldl (fun b x => foldl g b (f x)) b l = foldl g b (concat (f <$> l)).
Proof.
  revert b. induction l as [|x l IH]; intros b; [done|].
  rewrite fmap_cons. cbn [foldl concat]. by rewrite foldl_app, IH.
Qed.

(** The loops of [incorrect_counts] as one loop over the names that are
    not in the official top 12. *)
Lemma incorrect_counts_foldl (actual_top12 : list string)
  (comparison_df : list Scorecard) :
  incorrect_counts actual_top12 comparison_df
  = foldl (fun d candidate => dict_set candidate (dict_get candidate d + 1) d)
          []
          (filter (fun candidate => candidate ∉ actual_top12)
                  (predicted_names comparison_df)).
Proof.
  unfold incorrect_counts, predicted_names.
  rewrite <- foldl_filter_step.
  apply (foldl_concat Predicted_Top_12
           (fun d candidate =>
              if decide (candidate ∉ actual_top12)
              then dict_set candidate (dict_get candidate d + 1) d else d)).
Qed.

Lemma incorrect_counts_get (d : Counts) (l : list string) (name : string) :
  dict_get name
    (foldl (fun d candidate => dict_set candidate (dict_get candidate d + 1) d)
           d l)
  = dict_get name d + occurrences name l.
Proof.
  revert d. induction l as [|x l IH]; intros d; cbn [foldl].
  - unfold occurrences. simpl. lia.
  - rewrite IH, dict_get_set. unfold occurrences. rewrite filter_cons.
    destruct (decide (name = x)) as [->|Hx].
    + rewrite decide_True by done. simpl. lia.
    + rewrite decide_False by done. done.
Qed.

Lemma occurrences_filter (P : string -> Prop) `{forall x, Decision (P x)}
  (name : string) (l : list string) :
  P name -> occurrences name (filter P l) = occurrences name l.
Proof.
  intros HP. unfold occurrences. rewrite list_filter_filter. f_equal.
  apply list_filter_iff. intros candidate. split; [tauto|].
  intros ->. by split.
Qed.

Lemma incorrect_counts_map (actual_top12 : list string)
  (comparison_df : list Scorecard) :
  incorrect_counts actual_top12 comparison_df
  = (fun candidate =>
       (candidate, occurrences candidate (predicted_names comparison_df)))
      <$> drop_duplicates
            (filter (fun candidate => candidate ∉ actual_top12)
                    (predicted_names comparison_df)).
Proof.
  rewrite incorrect_counts_foldl.
  match goal with |- ?counts = _ => set (d := counts) end.
  assert (d.*1 = drop_duplicates
                   (filter (fun candidate => candidate ∉ actual_top12)
                           (predicted_names comparison_df))) as Hkeys.
  { apply (foldl_step_keys _ (fun d key => dict_set_keys key _ d) []). }
  rewrite (dict_items d), Hkeys.
  - apply fmap_ext_elem_of. intros candidate Hin.
    apply (proj1 (elem_of_drop_duplicates _ _)) in Hin.
    apply list_elem_of_filter in Hin as [Hwrong _].
    f_equal. unfold d. rewrite incorrect_counts_get. simpl.
    by apply (occurrences_filter (fun candidate => candidate ∉ actual_top12)).
  - rewrite Hkeys. apply NoDup_drop_duplicates_from.
Qed.

(** The dictionary of the wrongly included candidates has as its keys the
    predicted names that are not in the official top 12, each once and in
    the order in which the surveys bring them up, and as the value of
    each the number of places it takes in the predicted lists. *)
Theorem incorrect_counts_items (actual_top12 : list string)
  (comparison_df : list Scorecard) :
  incorrect_counts actual_top12 comparison_df
  = (fun candidate =>
       (candidate, occurrences candidate (predicted_names comparison_df)))
      <$> drop_duplicates
            (filter (fun candidate => candidate ∉ actual_top12)
                    (predicted_names comparison_df)).
Proof. apply incorrect_counts_map. Qed.

Lemma occurrences_NoDup (name : string) (l : list string) :
  NoDup l -> occurrences name l = if decide (name ∈ l) then 1 else 0.
Proof.
  unfold occurrences. induction 1 as [|x l Hx Hl IH]; [done|].
  rewrite filter_cons. destruct (decide (x = name)) as [->|Hname].
  - rewrite decide_True by (by left). simpl. rewrite IH.
    by rewrite decide_False.
  - rewrite IH. destruct (decide (name ∈ l)) as [Hin|Hin].
    + by rewrite decide_True by (by right).
    + rewrite decide_False; [done|].
      intros [?|?]%elem_of_cons; [by apply Hname|done].
Qed.

Lemma occurrences_app (name : string) (l k : list string) :
  occurrences name (l ++ k) = occurrences name l + occurrences name k.
Proof. unfold occurrences. by rewrite filter_app, length_app, Nat.add_comm. Qed.

Lemma occurrences_included (comparison_df : list Scorecard) (name : string) :
  Forall (fun card => NoDup (Predicted_Top_12 card)) comparison_df ->
  occurrences name (predicted_names comparison_df)
  = included_count comparison_df name.
Proof.
  unfold predicted_names, included_count.
  induction 1 as [|card cards Hcard Hcards IH]; [done|].
  rewrite fmap_cons, filter_cons. cbn [concat].
  rewrite occurrences_app, IH, (occurrences_NoDup _ _ Hcard).
  by destruct (decide (name ∈ Predicted_Top_12 card)).
Qed.

Lemma occurrences_pos (name : string) (l : list string) :
  name ∈ l -> 0 < occurrences name l.
Proof.
  intros Hin. unfold occurrences.
  assert (name ∈ filter (fun candidate => candidate = name) l) as Hfilter
    by (by apply list_elem_of_filter).
  destruct (filter _ l); [by apply elem_of_nil in Hfilter|simpl; lia].
Qed.

(** When no predicted list holds a name twice, the count of a wrongly
    included candidate is the number of surveys that include the
    candidate, at least one and at most all of them; the candidate is not
    in the official top 12. *)
Theorem incorrect_counts_surveys (actual_top12 : list string)
  (comparison_df : list Scorecard) (candidate : string) (count : nat) :
  Forall (fun card => NoDup (Predicted_Top_12 card)) comparison_df ->
  (candidate, count) ∈ incorrect_counts actual_top12 comparison_df ->
  (candidate ∉ actual_top12)
  /\ count = included_count comparison_df candidate
  /\ (0 < count <= length comparison_df).
Proof.
  intros Hnodup. rewrite incorrect_counts_map.
  intros (name & [= -> ->] & Hin)%list_elem_of_fmap.
  apply (proj1 (elem_of_drop_duplicates _ _)) in Hin.
  apply list_elem_of_filter in Hin as [Hwrong Hin].
  split; [done|]. split; [by apply occurrences_included|].
  split; [by apply occurrences_pos|].
  rewrite occurrences_included by done. apply length_filter.
Qed.

Lemma incorrect_counts_surveys_witness :
  ("Erwin Tulfo", 2) ∈ incorrect_counts ["Bong Go"; "Bam Aquino"] sample_cards
  /\ 2 = included_count sample_cards "Erwin Tulfo".
Proof.
  assert (Forall (fun card => NoDup (Predicted_Top_12 card)) sample_cards)
    as Hnodup.
  { repeat constructor; rewrite ?elem_of_cons, ?elem_of_nil; intuition congruence. }
  assert (("Erwin Tulfo", 2)
            ∈ incorrect_counts ["Bong Go"; "Bam Aquino"] sample_cards)
    as Hin by (vm_compute; left).
  split; [exact Hin|].
  exact (proj1 (proj2 (incorrect_counts_surveys _ _ _ _ Hnodup Hin))).
Defined.

(** A name that a predicted list holds twice counts twice: the count of a
    wrongly included candidate can exceed the number of surveys. *)
Example incorrect_counts_repeated_name :
  incorrect_counts []
    [ {| Opinion_Polling := "SWS"; Correct_Predictions := 0;
         Accuracy := 0%float;
         Predicted_Top_12 := ["Bong Go"; "Bong Go"] |} ]
  = [("Bong Go", 2)].
Proof. reflexivity. Qed.

Lemma dict_set_incr_sum (key : string) (d : Counts) :
  sum_list (dict_set key (dict_get key d + 1) d).*2 = sum_list d.*2 + 1.
Proof.
  induction d as [|item rest IH]; [done|].
  cbn [dict_set dict_get]. destruct (decide (item.1 = key)).
  - rewrite !fmap_cons. simpl. lia.
  - rewrite !fmap_cons. cbn [sum_list sum_list_with]. rewrite IH. lia.
Qed.

Lemma incorrect_counts_sum (d : Counts) (l : list string) :
  sum_list
    (foldl (fun d candidate => dict_set candidate (dict_get candidate d + 1) d)
           d l).*2
  = sum_list d.*2 + length l.
Proof.
  revert d. induction l as [|x l IH]; intros d; cbn [foldl].
  - simpl. lia.
  - rewrite IH, dict_set_incr_sum. simpl. lia.
Qed.

Lemma correct_count_of_concat (actual_top12 : list string)
  (lists : list (list string)) :
  correct_count_of actual_top12 (concat lists)
  = sum_list (correct_count_of actual_top12 <$> lists).
Proof.
  unfold correct_count_of. induction lists as [|l lists IH]; [done|].
  rewrite fmap_cons. cbn [concat sum_list sum_list_with].
  by rewrite filter_app, length_app, IH.
Qed.

(** Every place of a predicted list is counted once: the counts of the
    wrongly included candidates and the correct predictions of the
    scorecards add up to the number of predicted names. *)
Theorem incorrect_counts_total
  (sort_values : list (string * float) -> list (string * float))
  (opinion_polls : OpinionPolls) (actual_top12 : list string) :
  exists comparison_df,
    generate_comparison_results sort_values opinion_polls actual_top12
    = Ok comparison_df
    /\ sum_list (incorrect_counts actual_top12 comparison_df).*2
       + sum_list (Correct_Predictions <$> comparison_df)
       = length (predicted_names comparison_df).
Proof.
  destruct (generate_comparison_results_Ok sort_values opinion_polls actual_top12)
    as (cards & Hcards & _).
  exists cards. split; [done|].
  rewrite incorrect_counts_foldl, incorrect_counts_sum.
  assert (Correct_Predictions <$> cards
          = correct_count_of actual_top12 <$> (Predicted_Top_12 <$> cards)) as ->.
  { rewrite <- list_fmap_compose. apply fmap_ext_elem_of. intros card Hcard.
    destruct (generate_comparison_results_cards _ _ _ _ _ Hcards Hcard)
      as (scores & _ & ->). done. }
  unfold predicted_names. rewrite <- correct_count_of_concat.
  unfold correct_count_of. simpl. rewrite Nat.add_comm.
  apply (length_filter_complement (fun candidate => candidate ∈ actual_top12)).
Qed.

(** ** The two reports of the summary page *)

Lemma count_le_total (a b : string * nat) :
  True -> True -> count_le a b = true \/ count_le b a = true.
Proof.
  intros _ _. unfold count_le.
  destruct (Nat.leb_spec a.2 b.2); [by left|].
  right. apply Nat.leb_le. lia.
Qed.

Lemma count_le_trans (a b c : string * nat) :
  count_le a b = true -> count_le b c = true -> count_le a c = true.
Proof. unfold count_le. rewrite !Nat.leb_le. lia. Qed.

Lemma stable_sort_desc_count_sorted (d : Counts) :
  StronglySorted (desc count_le) (stable_sort_desc count_le d).
Proof.
  apply (stable_sort_desc_sorted count_le (fun _ => True)
           count_le_total count_le_trans).
  by apply Forall_forall.
Qed.

Lemma StronglySorted_impl {A : Type} (R R' : relation A) (l : list A) :
  (forall a b, R a b -> R' a b) -> StronglySorted R l -> StronglySorted R' l.
Proof.
  intros HR. induction 1 as [|x l Hl IH Hx]; constructor; [done|].
  eapply Forall_impl; [exact Hx|]. apply HR.
Qed.

Lemma StronglySorted_filter {A : Type} (R : relation A) (P : A -> Prop)
  `{forall x, Decision (P x)} (l : list A) :
  StronglySorted R l -> StronglySorted R (filter P l).
Proof.
  induction 1 as [|x l Hl IH Hx]; [constructor|].
  rewrite filter_cons. destruct (decide (P x)); [|done].
  constructor; [done|]. apply Forall_forall. intros y Hy.
  apply list_elem_of_filter in Hy as [_ Hy].
  by apply (proj1 (Forall_forall _ _) Hx).
Qed.

Lemma most_counted_sorted (d : Counts) :
  StronglySorted (fun a b => b.2 <= a.2) (most_counted d)
  /\ forall a b,
       a ∈ most_counted d -> b ∈ drop 5 (stable_sort_desc count_le d) ->
       b.2 <= a.2.
Proof.
  unfold most_counted.
  pose proof (stable_sort_desc_count_sorted d) as Hsorted.
  rewrite <- (take_drop 5 (stable_sort_desc count_le d)) in Hsorted.
  apply StronglySorted_app in Hsorted as (Hbelow & Htake & _). split.
  - eapply StronglySorted_impl; [|exact Htake].
    intros a b Hab. by apply Nat.leb_le.
  - intros a b Ha Hb. by apply Nat.leb_le, Hbelow.
Qed.

Lemma most_counted_length (d : Counts) :
  length (most_counted d) = min 5 (length d).
Proof.
  unfold most_counted.
  by rewrite length_take, (stable_sort_desc_perm count_le d).
Qed.

(** [sorted(d.items(), key=lambda x: x[1], reverse=True)[:5]] holds at
    most five items of the dictionary, in descending order of the count;
    the items left out have no greater count than the ones kept, and
    the items with the same count stand in the order of the dictionary. *)
Theorem most_counted_greatest (d : Counts) :
  let ranking := stable_sort_desc count_le d in
  length (most_counted d) = min 5 (length d)
  /\ most_counted d ++ drop 5 ranking ≡ₚ d
  /\ StronglySorted (fun a b => b.2 <= a.2) (most_counted d)
  /\ (forall a b, a ∈ most_counted d -> b ∈ drop 5 ranking -> b.2 <= a.2)
  /\ (forall count,
        filter (fun item => item.2 = count) ranking
        = filter (fun item => item.2 = count) d).
Proof.
  intros ranking. destruct (most_counted_sorted d) as [Hsorted Hbelow].
  split; [|split; [|split; [|split]]].
  - apply most_counted_length.
  - unfold most_counted. rewrite take_drop. apply stable_sort_desc_perm.
  - done.
  - done.
  - intros count.
    pose proof (stable_sort_desc_stable count_le count_le_trans ("", count) d)
      as Hstable.
    etrans; [|etrans; [exact Hstable|]]; apply list_filter_iff; intros item;
      unfold tied, count_le; simpl;
      rewrite andb_true_iff, !Nat.leb_le; lia.
Qed.

Lemma mapM_result_fmap {A B : Type} (f : A -> B) (g : A -> result B)
  (l : list A) :
  (forall x, x ∈ l -> g x = Ok (f x)) -> mapM g l = Ok (f <$> l).
Proof.
  induction l as [|x l IH]; intros Hg; [done|].
  cbn [mapM]. rewrite Hg by (by left). cbn [mbind result_bind].
  rewrite IH by (intros; apply Hg; by right). done.
Qed.

(** The percentages are computed whenever an item with a positive count
    comes with at least one survey; the lines are those of the items with
    a positive count. *)
Lemma percentage_lines_Ok (surveys : nat) (items : Counts) :
  Forall (fun item => 0 < item.2 -> 0 < surveys) items ->
  percentage_lines surveys items
  = Ok (percentage_line surveys <$> filter (fun item => 0 < item.2) items).
Proof.
  intros Hitems. unfold percentage_lines.
  rewrite (mapM_result_fmap
             (fun item : string * nat =>
                if 0 <? item.2 then Some (percentage_line surveys item)
                else None)).
  - cbn [mbind result_bind mret result_ret]. f_equal.
    clear Hitems. induction items as [|item items IH]; [done|].
    rewrite fmap_cons, (filter_cons (fun item : string * nat => 0 < item.2)).
    cbn [omap list_omap].
    destruct (Nat.ltb_spec 0 item.2) as [Hpos|Hzero].
    + rewrite decide_True by done. rewrite fmap_cons. simpl. f_equal. apply IH.
    + rewrite decide_False by lia. simpl. apply IH.
  - intros item Hin.
    pose proof (proj1 (Forall_forall _ _) Hitems item Hin) as Hsurveys.
    destruct (Nat.ltb_spec 0 item.2) as [Hpos|Hzero]; [|done].
    specialize (Hsurveys Hpos). destruct surveys as [|surveys]; [lia|]. done.
Qed.

(** The guard [count > 0] by itself does not keep the division safe. *)
Example percentage_lines_no_survey :
  percentage_lines 0 [("Bong Go", 1)] = Raise ZeroDivisionError.
Proof. reflexivity. Qed.

Lemma most_counted_subseteq (d : Counts) : most_counted d ⊆ d.
Proof.
  intros item Hitem. unfold most_counted in Hitem.
  apply subseteq_take in Hitem.
  by rewrite (stable_sort_desc_perm count_le d) in Hitem.
Qed.

Lemma report_lines (surveys : nat) (d : Counts) :
  Forall (fun item => 0 < item.2 -> 0 < surveys) d ->
  exists lines,
    percentage_lines surveys (most_counted d) = Ok lines
    /\ length lines <= 5
    /\ StronglySorted (fun a b => b.1.2 <= a.1.2) lines
    /\ Forall (fun line => (line.1.1, line.1.2) ∈ d
                           /\ 0 < line.1.2
                           /\ line = percentage_line surveys line.1) lines.
Proof.
  intros Hd. eexists. split.
  { apply percentage_lines_Ok. apply Forall_forall. intros item Hitem.
    apply most_counted_subseteq in Hitem.
    by apply (proj1 (Forall_forall _ _) Hd). }
  pose proof (most_counted_length d) as Hlength.
  destruct (most_counted_sorted d) as [Hsorted _].
  split; [|split].
  - rewrite length_fmap. etrans; [apply length_filter|]. lia.
  - apply (StronglySorted_fmap _ (fun a b : string * nat => b.2 <= a.2));
      [by intros [] []|].
    by apply StronglySorted_filter.
  - apply Forall_forall. intros line Hline.
    apply list_elem_of_fmap in Hline as (item & -> & Hitem).
    apply list_elem_of_filter in Hitem as [Hpos Hitem].
    apply most_counted_subseteq in Hitem. by destruct item.
Qed.

(** The report of the most commonly missed senators never divides by
    zero: it is written for any official top 12 and any scorecards, has at
    most five lines, in descending order of the misses, each for a senator
    of the official top 12 that at least one survey misses, with the
    number of surveys that miss the senator and its percentage of the
    surveys. *)
Theorem missed_report_lines (actual_top12 : list string)
  (comparison_df : list Scorecard) :
  exists lines,
    missed_report actual_top12 comparison_df = Ok lines
    /\ length lines <= 5
    /\ StronglySorted (fun a b => b.1.2 <= a.1.2) lines
    /\ Forall (fun line =>
                 line.1.1 ∈ actual_top12
                 /\ line.1.2 = missed_count comparison_df line.1.1
                 /\ (0 < line.1.2 <= length comparison_df)
                 /\ line = percentage_line (length comparison_df) line.1)
              lines.
Proof.
  destruct (report_lines (length comparison_df)
              (missed_counts actual_top12 comparison_df))
    as (lines & Hlines & Hlength & Hsorted & Hall).
  - apply Forall_forall. intros [senator count] Hitem Hpos.
    rewrite missed_counts_map in Hitem.
    apply list_elem_of_fmap in Hitem as (name & [= -> ->] & _).
    pose proof (missed_count_included comparison_df name). simpl in *. lia.
  - exists lines. split; [done|]. split; [done|]. split; [done|].
    eapply Forall_impl; [exact Hall|]. intros line (Hitem & Hpos & Hline).
    rewrite missed_counts_map in Hitem.
    apply list_elem_of_fmap in Hitem as (senator & [= Hsenator Hcount] & Hin).
    apply (proj1 (elem_of_drop_duplicates _ _)) in Hin.
    pose proof (missed_count_included comparison_df senator).
    split; [congruence|]. split; [congruence|]. split; [lia|done].
Qed.

(** The report of the most commonly wrongly included candidates never
    divides by zero either: it has at most five lines, in descending
    order of the count, each for a predicted name that is not in the
    official top 12, with the number of places the name takes in the
    predicted lists and that number's percentage of the surveys. *)
Theorem incorrect_report_lines (actual_top12 : list string)
  (comparison_df : list Scorecard) :
  exists lines,
    incorrect_report actual_top12 comparison_df = Ok lines
    /\ length lines <= 5
    /\ StronglySorted (fun a b => b.1.2 <= a.1.2) lines
    /\ Forall (fun line =>
                 (line.1.1 ∉ actual_top12)
                 /\ line.1.2
                    = occurrences line.1.1 (predicted_names comparison_df)
                 /\ 0 < line.1.2
                 /\ line = percentage_line (length comparison_df) line.1)
              lines.
Proof.
  assert (forall candidate count,
            (candidate, count) ∈ incorrect_counts actual_top12 comparison_df ->
            (candidate ∉ actual_top12)
            /\ count = occurrences candidate (predicted_names comparison_df)
            /\ candidate ∈ predicted_names comparison_df) as Hitems.
  { intros candidate count. rewrite incorrect_counts_map.
    intros (name & [= -> ->] & Hin)%list_elem_of_fmap.
    apply (proj1 (elem_of_drop_duplicates _ _)) in Hin.
    by apply list_elem_of_filter in Hin as [Hwrong Hin]. }
  destruct (report_lines (length comparison_df)
              (incorrect_counts actual_top12 comparison_df))
    as (lines & Hlines & Hlength & Hsorted & Hall).
  - apply Forall_forall. intros [candidate count] Hitem _.
    destruct (Hitems _ _ Hitem) as (_ & _ & Hin).
    destruct comparison_df; [by apply elem_of_nil in Hin|simpl; lia].
  - exists lines. split; [done|]. split; [done|]. split; [done|].
    eapply Forall_impl; [exact Hall|]. intros line (Hitem & Hpos & Hline).
    destruct (Hitems _ _ Hitem) as (Hwrong & Hcount & _). done.
Qed.

(** ** The first page *)

Lemma py_index_Some {A : Type} `{EqDecision A} (x : A) (l : list A) (i : nat) :
  py_index x l = Some i
  <-> l !! i = Some x /\ forall j, j < i -> l !! j <> Some x.
Proof.
  revert i. induction l as [|y l IH]; intros i; cbn [py_index].
  - split; [done|]. by intros [? _].
  - destruct (decide (y = x)) as [->|Hy].
    + split.
      * intros [= <-]. split; [done|]. intros j Hj. lia.
      * intros [Hi Hfirst]. destruct i as [|i]; [done|].
        by destruct (Hfirst 0 ltac:(lia)).
    + rewrite fmap_Some. split.
      * intros (k & Hk & ->). apply IH in Hk as [Hk Hfirst].
        split; [done|]. intros [|j] Hj; simpl; [congruence|].
        apply Hfirst. lia.
      * intros [Hi Hfirst]. destruct i as [|i]; simpl in Hi; [congruence|].
        exists i. split; [|done]. apply IH. split; [done|].
        intros j Hj. apply (Hfirst (S j)). lia.
Qed.

Lemma py_index_None {A : Type} `{EqDecision A} (x : A) (l : list A) :
  py_index x l = None <-> x ∉ l.
Proof.
  induction l as [|y l IH]; cbn [py_index].
  - split; [intros _; apply not_elem_of_nil|done].
  - rewrite not_elem_of_cons. destruct (decide (y = x)) as [->|Hy].
    + split; [done|]. by intros [? _].
    + rewrite fmap_None, IH. split; [by split|tauto].
Qed.

Lemma rank_in_place (top : list string) (candidate : string) :
  exists rank,
    rank_in top candidate = Some rank
    /\ match rank with
       | Ranked n =>
           (1 <= n <= length top)
           /\ top !! (n - 1) = Some candidate
           /\ forall j, j < n - 1 -> top !! j <> Some candidate
       | Not_in_top => candidate ∉ top
       end.
Proof.
  unfold rank_in. destruct (bool_decide_reflect (candidate ∈ top)) as [Hin|Hin].
  - destruct (py_index candidate top) as [i|] eqn:Hindex.
    + exists (Ranked (i + 1)). split; [done|].
      apply py_index_Some in Hindex as [Hi Hfirst].
      replace (i + 1 - 1) with i by lia.
      split; [|by split]. apply lookup_lt_Some in Hi. lia.
    + by apply py_index_None in Hindex.
  - by exists Not_in_top.
Qed.

(** The guarded [top.index(candidate) + 1] never raises: a candidate of
    the list gets the number of its first place, counted from 1, and any
    other candidate the text that stands for no rank. *)
Theorem rank_in_first_place (top : list string) (candidate : string) :
  exists rank,
    rank_in top candidate = Some rank
    /\ match rank with
       | Ranked n =>
           (1 <= n <= length top)
           /\ top !! (n - 1) = Some candidate
           /\ forall j, j < n - 1 -> top !! j <> Some candidate
       | Not_in_top => candidate ∉ top
       end.
Proof. apply rank_in_place. Qed.

Lemma rank_lines_from (other shown : list string) (k : nat) :
  exists lines,
    mapM (fun numbered : nat * string =>
            rank ← rank_in other numbered.2;
            Some {| line_number := numbered.1 + 1;
                    line_candidate := numbered.2;
                    line_mark := bool_decide (numbered.2 ∈ other);
                    line_rank := rank |})
         (imap (fun i candidate => (k + i, candidate)) shown) = Some lines
    /\ line_candidate <$> lines = shown
    /\ line_number <$> lines = seq (k + 1) (length shown)
    /\ length (marked lines) = correct_count_of other shown
    /\ Forall (fun line =>
                 line_mark line = bool_decide (line_candidate line ∈ other)
                 /\ rank_in other (line_candidate line)
                    = Some (line_rank line)) lines.
Proof.
  revert k. induction shown as [|candidate shown IH]; intros k.
  - exists []. by repeat split.
  - destruct (IH (S k)) as (lines & Hlines & Hnames & Hnumbers & Hmarks & Hall).
    destruct (rank_in_place other candidate) as (rank & Hrank & _).
    exists ({| line_number := k + 0 + 1; line_candidate := candidate;
               line_mark := bool_decide (candidate ∈ other);
               line_rank := rank |} :: lines).
    split; [|split; [|split; [|split]]].
    + rewrite imap_cons. cbn [mapM]. cbn [snd fst]. rewrite Hrank.
      cbn [mbind option_bind].
      rewrite (imap_ext _ (fun i candidate => (S k + i, candidate)))
        by (intros; simpl; f_equal; lia).
      rewrite Hlines. done.
    + rewrite fmap_cons. simpl. by rewrite Hnames.
    + rewrite fmap_cons. simpl. rewrite Hnumbers.
      by replace (k + 0 + 1) with (k + 1) by lia.
    + unfold marked, correct_count_of in *. rewrite !filter_cons. simpl.
      destruct (bool_decide_reflect (candidate ∈ other)) as [Hin|Hin].
      * rewrite decide_True by done. rewrite decide_True by done.
        simpl. by rewrite Hmarks.
      * rewrite decide_False by done. rewrite decide_False by done.
        done.
    + by constructor.
Qed.

(** A column of the first page is written for any two lists: it has a
    line for each shown candidate, numbered from 1; the marked lines are
    as many as the shown candidates that the other list holds; a line
    with a rank is marked and its rank is a place of the candidate in
    the other list, a line without a rank is not marked and its candidate
    is not in the other list. *)
Theorem rank_lines_marks (shown other : list string) :
  exists lines,
    rank_lines shown other = Some lines
    /\ line_candidate <$> lines = shown
    /\ line_number <$> lines = seq 1 (length shown)
    /\ length (marked lines) = correct_count_of other shown
    /\ Forall (fun line =>
                 match line_rank line with
                 | Ranked n =>
                     line_mark line = true
                     /\ 1 <= n
                     /\ other !! (n - 1) = Some (line_candidate line)
                 | Not_in_top =>
                     line_mark line = false
                     /\ line_candidate line ∉ other
                 end) lines.
Proof.
  destruct (rank_lines_from other shown 0)
    as (lines & Hlines & Hnames & Hnumbers & Hmarks & Hall).
  exists lines. split; [exact Hlines|]. split; [done|]. split; [done|].
  split; [done|]. eapply Forall_impl; [exact Hall|].
  intros line [Hmark Hrank].
  destruct (rank_in_place other (line_candidate line))
    as (rank & Hrank' & Hplace).
  rewrite Hrank in Hrank'. injection Hrank' as <-.
  destruct (line_rank line) as [n|].
  - destruct Hplace as (Hn & Hplace & _). split; [|split; [lia|done]].
    rewrite Hmark. apply bool_decide_eq_true.
    by apply list_elem_of_lookup_2 in Hplace.
  - split; [|done]. rewrite Hmark. by apply bool_decide_eq_false.
Qed.

Lemma spec_correctCount_comm (l k : list string) :
  spec_correctCount l k = spec_correctCount k l.
Proof. unfold spec_correctCount. f_equal. apply (comm_L (∩)). Qed.

(** The two columns of the first page agree with the scorecard: the
    marks of the predicted column are as many as the correct predictions
    of the scorecard, and so are those of the actual column when neither
    list holds a name twice. *)
Theorem columns_marks
  (sort_values : list (string * float) -> list (string * float))
  (opinion_polls : OpinionPolls) (actual_top12 : list string) :
  exists comparison_df,
    generate_comparison_results sort_values opinion_polls actual_top12
    = Ok comparison_df
    /\ Forall
         (fun poll_data =>
            exists predicted actual,
              rank_lines (Predicted_Top_12 poll_data) actual_top12
              = Some predicted
              /\ rank_lines actual_top12 (Predicted_Top_12 poll_data)
                 = Some actual
              /\ length (marked predicted) = Correct_Predictions poll_data
              /\ (NoDup (Predicted_Top_12 poll_data) -> NoDup actual_top12 ->
                  length (marked actual) = Correct_Predictions poll_data))
         comparison_df.
Proof.
  destruct (generate_comparison_results_Ok sort_values opinion_polls actual_top12)
    as (cards & Hcards & _).
  exists cards. split; [done|]. apply Forall_forall. intros card Hcard.
  destruct (generate_comparison_results_cards _ _ _ _ _ Hcards Hcard)
    as (scores & _ & Hcard').
  assert (Correct_Predictions card
          = correct_count_of actual_top12 (Predicted_Top_12 card)) as ->
    by (by rewrite Hcard').
  destruct (rank_lines_from actual_top12 (Predicted_Top_12 card) 0)
    as (predicted & Hpredicted & _ & _ & Hmarks & _).
  destruct (rank_lines_from (Predicted_Top_12 card) actual_top12 0)
    as (actual & Hactual & _ & _ & Hmarks' & _).
  exists predicted, actual. split; [done|]. split; [done|]. split; [done|].
  intros Hnodup Hnodup'. rewrite Hmarks'.
  rewrite !correct_count_of_intersection by done.
  apply spec_correctCount_comm.
Qed.

(** With a name that the predicted list holds twice the two columns show
    different numbers of marks. *)
Example columns_marks_repeated_name :
  (length ∘ marked) <$> rank_lines ["Bong Go"; "Bong Go"] ["Bong Go"] = Some 2
  /\ (length ∘ marked) <$> rank_lines ["Bong Go"] ["Bong Go"; "Bong Go"]
     = Some 1.
Proof. split; vm_compute; reflexivity. Qed.

Lemma generate_comparison_results_names
  (sort_values : list (string * float) -> list (string * float))
  (opinion_polls : OpinionPolls) (actual_top12 : list string)
  (cards : list Scorecard) :
  generate_comparison_results sort_values opinion_polls actual_top12 = Ok cards ->
  Opinion_Polling <$> cards = poll_columns opinion_polls.
Proof.
  intros Hcards.
  destruct (generate_comparison_results_Ok sort_values opinion_polls actual_top12)
    as (cards' & Hcards' & Hall).
  rewrite Hcards in Hcards'. injection Hcards' as <-. clear Hcards.
  revert Hall. generalize (poll_columns opinion_polls). intros columns Hall.
  induction Hall as [|column card columns cards (scores & _ & ->) _ IH];
    [done|].
  rewrite fmap_cons. simpl. by f_equal.
Qed.

(** The row of the selected survey: [.iloc[0]] finds a row exactly for
    the headers of the survey columns, and the row is the scorecard of
    the column with that header. *)
Theorem poll_data_of_selected
  (sort_values : list (string * float) -> list (string * float))
  (opinion_polls : OpinionPolls) (actual_top12 : list string) :
  exists comparison_df,
    generate_comparison_results sort_values opinion_polls actual_top12
    = Ok comparison_df
    /\ forall selected_poll,
         match poll_data_of comparison_df selected_poll with
         | Some poll_data =>
             selected_poll ∈ poll_columns opinion_polls
             /\ exists scores,
                  polls_column opinion_polls selected_poll = Some scores
                  /\ poll_data
                     = scorecard_of sort_values (polls_names opinion_polls)
                         actual_top12 selected_poll scores
         | None => selected_poll ∉ poll_columns opinion_polls
         end.
Proof.
  destruct (generate_comparison_results_Ok sort_values opinion_polls actual_top12)
    as (cards & Hcards & _).
  exists cards. split; [done|]. intros selected_poll.
  pose proof (generate_comparison_results_names _ _ _ _ Hcards) as Hnames.
  unfold poll_data_of.
  destruct (head (filter _ cards)) as [card|] eqn:Hhead.
  - apply head_Some_elem_of, list_elem_of_filter in Hhead as [<- Hcard].
    split.
    + rewrite <- Hnames. by apply list_elem_of_fmap_2.
    + by apply (generate_comparison_results_cards _ _ _ _ _ Hcards).
  - apply head_None in Hhead. rewrite <- Hnames.
    intros (card & -> & Hcard)%list_elem_of_fmap.
    by apply (filter_nil_not_elem_of _ _ card) in Hhead.
Qed.

(** The bar chart shows the scorecard of the selected survey: for the
    header of a survey column the chart has at most twenty rows, the
    names of its first twelve rows are the predicted top 12 of the
    scorecard, and as many of those rows are in the official top 12 as
    the scorecard has correct predictions. *)
Theorem top_candidates_predicted
  (sort_values : list (string * float) -> list (string * float))
  (opinion_polls : OpinionPolls) (actual_top12 : list string)
  (selected_poll : string) :
  selected_poll ∈ poll_columns opinion_polls ->
  exists comparison_df poll_data rows,
    generate_comparison_results sort_values opinion_polls actual_top12
    = Ok comparison_df
    /\ poll_data_of comparison_df selected_poll = Some poll_data
    /\ top_candidates sort_values opinion_polls selected_poll = Ok rows
    /\ length rows <= 20
    /\ Predicted_Top_12 poll_data = (take 12 rows).*1
    /\ Correct_Predictions poll_data
       = length (filter (fun row => row.1 ∈ actual_top12) (take 12 rows)).
Proof.
  intros Hselected.
  destruct (generate_comparison_results_Ok sort_values opinion_polls actual_top12)
    as (cards & Hcards & _).
  pose proof (generate_comparison_results_names _ _ _ _ Hcards) as Hnames.
  unfold poll_data_of.
  destruct (head (filter (fun card => Opinion_Polling card = selected_poll)
                         cards)) as [card|] eqn:Hhead.
  - pose proof Hhead as Hcard.
    apply head_Some_elem_of, list_elem_of_filter in Hcard as [<- Hcard].
    destruct (generate_comparison_results_cards _ _ _ _ _ Hcards Hcard)
      as (scores & Hscores & Hcard').
    exists cards, card. eexists. split; [done|]. split; [done|].
    unfold top_candidates, select_poll. rewrite Hscores.
    cbn [mbind result_bind mret result_ret]. split; [done|].
    split; [rewrite length_take; lia|].
    rewrite take_take. change (12 `min` 20) with 12.
    rewrite Hcard' at 1 2. cbn [Predicted_Top_12 Correct_Predictions scorecard_of].
    split; [done|]. unfold correct_count_of.
    generalize (take 12 (sort_values
                           (dropna (zip (polls_names opinion_polls) scores)))).
    intros rows. induction rows as [|row rows IH]; [done|].
    rewrite fmap_cons, !filter_cons. simpl.
    destruct (decide (row.1 ∈ actual_top12)); simpl; by rewrite IH.
  - apply head_None in Hhead. rewrite <- Hnames in Hselected.
    apply list_elem_of_fmap in Hselected as (card & -> & Hcard).
    by apply (filter_nil_not_elem_of _ _ card) in Hhead.
Qed.

Lemma top_candidates_predicted_witness :
  exists comparison_df poll_data rows,
    generate_comparison_results (stable_sort_desc score_le) sample_polls
      ["Bong Go"; "Bam Aquino"] = Ok comparison_df
    /\ poll_data_of comparison_df "SWS" = Some poll_data
    /\ top_candidates (stable_sort_desc score_le) sample_polls "SWS" = Ok rows
    /\ length rows <= 20
    /\ Predicted_Top_12 poll_data = (take 12 rows).*1
    /\ Correct_Predictions poll_data
       = length (filter (fun row => row.1 ∈ ["Bong Go"; "Bam Aquino"])
                        (take 12 rows)).
Proof.
  apply (top_candidates_predicted (stable_sort_desc score_le) sample_polls
           ["Bong Go"; "Bam Aquino"] "SWS").
  vm_compute. left.
Defined.

(** ** The header of the survey table *)

Lemma chars_replace_break (skip : nat) (s : string) (c : ascii) :
  c ∈ String.list_ascii_of_string (Py.replace_from "<br>" " " skip s) ->
  c = " "%char \/ c ∈ String.list_ascii_of_string s.
Proof.
  revert skip. induction s as [|a s IH]; intros skip; [by right|].
  cbn [Py.replace_from]. destruct skip as [|skip].
  - destruct (String.prefix "<br>" (String a s)).
    + change (" " +:+ ?t) with (String " " t).
      cbn [String.list_ascii_of_string].
      intros [->|Hin]%elem_of_cons; [by left|].
      destruct (IH _ Hin); [by left|right; by right].
    + cbn [String.list_ascii_of_string].
      intros [->|Hin]%elem_of_cons; [right; by left|].
      destruct (IH _ Hin); [by left|right; by right].
  - intros Hin. destruct (IH _ Hin); [by left|right; by right].
Qed.

(** A text without a blank that starts the replaced string starts the
    string itself. *)
Lemma prefix_replace_break (p s : string) :
  " "%char ∉ String.list_ascii_of_string p ->
  String.prefix p (Py.replace_from "<br>" " " 0 s) = true ->
  String.prefix p s = true.
Proof.
  revert s. induction p as [|a p IH]; intros s Hblank; [by destruct s|].
  cbn [String.list_ascii_of_string] in Hblank.
  apply not_elem_of_cons in Hblank as [Ha Hp].
  destruct s as [|c s]; [done|]. cbn [Py.replace_from].
  destruct (String.prefix "<br>" (String c s)).
  - change (" " +:+ ?t) with (String " " t). cbn [String.prefix].
    destruct (ascii_dec a " ") as [->|_]; [done|discriminate].
  - cbn [String.prefix]. destruct (ascii_dec a c); [|done]. by apply IH.
Qed.

Lemma replace_break_clean (skip : nat) (s : string) :
  Py.contains "<br>" (Py.replace_from "<br>" " " skip s) = false.
Proof.
  revert skip. induction s as [|c s IH]; intros skip; [done|].
  cbn [Py.replace_from]. destruct skip as [|skip]; [|apply IH].
  destruct (String.prefix "<br>" (String c s)) eqn:Hprefix.
  - change (" " +:+ ?t) with (String " " t). cbn [Py.contains].
    rewrite IH. done.
  - cbn [Py.contains]. rewrite IH, orb_false_r.
    apply not_true_is_false. intros Hout. apply not_true_iff_false in Hprefix.
    apply Hprefix. cbn [String.prefix] in Hout |- *.
    destruct (ascii_dec "<" c) as [_|]; [|done].
    apply (prefix_replace_break "br>"); [|done].
    cbn. rewrite !elem_of_cons, elem_of_nil. intuition discriminate.
Qed.

(** No header cell of the survey table holds a line-break marker or a
    pipe, whatever the line; the header has as many cells as a data row
    of the same shape. *)
Theorem poll_header_cells_clean (line : string) :
  Forall (fun cell => Py.contains "<br>" cell = false
                      /\ Py.contains "|" cell = false)
         (poll_header_cells line)
  /\ length (poll_header_cells line) = length (table_cells line).
Proof.
  unfold poll_header_cells, table_cells. split; [|by rewrite !length_fmap].
  apply Forall_fmap, Forall_forall. intros piece Hpiece.
  apply slice_inner_subseteq in Hpiece. simpl.
  split; [apply replace_break_clean|].
  apply not_contains_char. intros Hin.
  apply chars_replace_break in Hin as [Hin|Hin]; [discriminate|].
  apply strip_chars in Hin.
  pose proof (split_chars "|" (Py.strip line)) as Hsplit.
  rewrite Forall_forall in Hsplit. by apply (Hsplit piece).
Qed.

(** The marker is replaced after the cell is stripped: a header cell can
    begin or end with the blank that stands for a marker. *)
Example poll_header_cells_blank :
  poll_header_cells "| Candidate | SWS<br>Jan 2025 | <br>OCTA |"
  = ["Candidate"; "SWS Jan 2025"; " OCTA"].
Proof. reflexivity. Qed.

(** ** A survey that the table does not have *)

(** For a name other than ['Candidate'], ['Party'] and
    ['Standardized Name'], the predicted top 12 is computed exactly when
    the name is the header of a survey column, and has at most twelve
    names; otherwise the name is no column of the frame and the selection
    raises [KeyError]. *)
Theorem get_top12_from_poll_KeyError
  (sort_values : list (string * float) -> list (string * float))
  (opinion_polls : OpinionPolls) (poll_column : string) :
  poll_column ∉ ["Candidate"; "Party"; "Standardized Name"] ->
  match get_top12_from_poll sort_values opinion_polls poll_column with
  | Ok poll_top12 =>
      poll_column ∈ poll_columns opinion_polls /\ length poll_top12 <= 12
  | Raise error =>
      error = KeyError /\ poll_column ∉ poll_columns opinion_polls
  end.
Proof.
  intros _. unfold get_top12_from_poll, select_poll, polls_column.
  destruct (list_find _ (polls_scores opinion_polls)) as [[i column]|] eqn:Hfind;
    cbn [fmap option_fmap option_map mbind result_bind mret result_ret].
  - apply list_find_Some in Hfind as (Hi & <- & _). split.
    + apply list_elem_of_fmap. exists column. split; [done|].
      by apply list_elem_of_lookup_2 in Hi.
    + rewrite length_fmap, length_take. lia.
  - split; [done|]. apply list_find_None in Hfind.
    intros (column & -> & Hin)%list_elem_of_fmap.
    by apply (proj1 (Forall_forall _ _) Hfind column Hin).
Qed.

Lemma get_top12_from_poll_KeyError_witness :
  ("Tangere" ∉ ["Candidate"; "Party"; "Standardized Name"])
  /\ match get_top12_from_poll (stable_sort_desc score_le) sample_polls
             "Tangere" with
     | Ok poll_top12 =>
         "Tangere" ∈ poll_columns sample_polls /\ length poll_top12 <= 12
     | Raise error =>
         error = KeyError /\ "Tangere" ∉ poll_columns sample_polls
     end.
Proof.
  assert ("Tangere" ∉ ["Candidate"; "Party"; "Standardized Name"]) as Hname.
  { rewrite !elem_of_cons, elem_of_nil. intros [?|[?|[?|[]]]]; discriminate. }
  split; [exact Hname|].
  exact (get_top12_from_poll_KeyError (stable_sort_desc score_le) sample_polls
           "Tangere" Hname).
Defined.
